(** * monaifbs/fetal_brain_seg.py: the command-line shim around [run_inference]

    The script parses its arguments, loads a YAML configuration, resolves the
    default checkpoint, and then, for every (input, output) pair, prepares the
    output folder, calls the external inference routine, and renames the file
    the routine is expected to have written.

    The embedding follows the script line by line.  Python [str] values are
    [string]s (one element per character), the [os.path] helpers are the
    POSIX ones, the file system is a finite map from absolute paths to nodes,
    and the statements of the script run in a state-and-exception monad whose
    state is the file system together with a log of the calls to the
    inference routine and to [os.makedirs], [os.rename] and [os.rmdir]. *)

From Stdlib Require Import ZArith Ascii.
From stdpp Require Import gmap strings list fin_maps.

Open Scope string_scope.

(** ** Python string operations used by the script *)

Module PyStr.

Fixpoint take (n : nat) (s : string) : string :=
  match n, s with
  | S n', String c r => String c (take n' r)
  | _, _ => ""
  end.

Fixpoint drop (n : nat) (s : string) : string :=
  match n, s with
  | S n', String _ r => drop n' r
  | _, _ => s
  end.

(** [s[:-n]] for a literal [n > 0]: everything but the last [n]
    characters, and the empty string when [s] is shorter than [n]. *)
Definition slice_to_neg (n : nat) (s : string) : string :=
  take (String.length s - n) s.

(** [s.startswith(p)] *)
Fixpoint startswith (p s : string) : bool :=
  match p, s with
  | "", _ => true
  | String a p', String b s' => Ascii.eqb a b && startswith p' s'
  | String _ _, "" => false
  end.

(** [needle in hay] *)
Fixpoint contains (needle hay : string) : bool :=
  startswith needle hay ||
  match hay with
  | "" => false
  | String _ r => contains needle r
  end.

(** [s.endswith(p)] *)
Definition endswith (p s : string) : bool :=
  String.eqb (drop (String.length s - String.length p) s) p
  && (String.length p <=? String.length s)%nat.

(** [s.rfind('/') + 1], which is [0] when [s] has no slash. *)
Fixpoint rfind_sep_succ (s : string) : nat :=
  match s with
  | "" => 0
  | String c r =>
      match rfind_sep_succ r with
      | 0 => if Ascii.eqb c "/"%char then 1 else 0
      | S i => S (S i)
      end
  end.

(** [s.rstrip('/')] *)
Fixpoint rstrip_sep (s : string) : string :=
  match s with
  | "" => ""
  | String c r =>
      match rstrip_sep r with
      | "" => if Ascii.eqb c "/"%char then "" else String c ""
      | r' => String c r'
      end
  end.

(** [s == '/' * len(s)] *)
Fixpoint all_sep (s : string) : bool :=
  match s with
  | "" => true
  | String c r => Ascii.eqb c "/"%char && all_sep r
  end.

(** [s.split('/')] *)
Fixpoint split_sep (s : string) : list string :=
  match s with
  | "" => [""]
  | String c r =>
      if Ascii.eqb c "/"%char then "" :: split_sep r
      else match split_sep r with
           | h :: t => String c h :: t
           | [] => [String c ""]
           end
  end.

End PyStr.

(** ** posixpath *)

Module PosixPath.

(** [os.path.basename]: [i = p.rfind('/') + 1; return p[i:]] *)
Definition basename (p : string) : string :=
  PyStr.drop (PyStr.rfind_sep_succ p) p.

(** [os.path.dirname]: the head [p[:i]], with its trailing slashes
    stripped unless it consists of slashes only. *)
Definition dirname (p : string) : string :=
  let head := PyStr.take (PyStr.rfind_sep_succ p) p in
  if negb (String.eqb head "") && negb (PyStr.all_sep head)
  then PyStr.rstrip_sep head
  else head.

(** [os.path.split]: the head as for [dirname] and the tail as for
    [basename]. *)
Definition split (p : string) : string * string := (dirname p, basename p).

(** One step of [os.path.join]: an absolute component resets the path,
    otherwise it is appended, with a separator unless the path is empty
    or already ends with one. *)
Definition join2 (path b : string) : string :=
  if PyStr.startswith "/" b then b
  else if String.eqb path "" || PyStr.endswith "/" path then path ++ b
  else path ++ "/" ++ b.

(** [os.path.join(a, *p)] *)
Definition join (a : string) (p : list string) : string :=
  fold_left join2 p a.

End PosixPath.

(** ** Exceptions *)

Inductive exn :=
  | FileNotFoundError (msg : string)
  | AssertionError (msg : string)
  | KeyError (key : string)
  | TypeError
  | FileExistsError (path : string)
  | NotADirectoryError (path : string)
  | IsADirectoryError (path : string)
  | OSError (errno : string)
  | YAMLError
  | Raised (name : string).

Abbreviation result A := (exn + A)%type (only parsing).

(** ** The file system

    A file system is a finite map from absolute paths, kept as the list of
    their components from the root, to nodes.  The root is always a
    directory.  There are no symbolic links and no permissions, and the
    working directory stays the same for the whole run.

    A path is walked component by component, as the kernel does: an empty
    or [.] component stays where it is, [..] goes to the parent, a name
    goes to the entry of that name, and the place from which a component
    is taken must be an existing directory.  Only the place reached by the
    last component may be missing; whether it may is up to the operation. *)

Module FS.

Inductive node := File (content : string) | Dir.

Abbreviation t := (gmap (list string) node) (only parsing).

Definition lookup_node (f : t) (k : list string) : option node :=
  match k with
  | [] => Some Dir
  | _ => f !! k
  end.

Definition push_comp (stack : list string) (c : string) : list string :=
  if String.eqb c "" || String.eqb c "." then stack
  else if String.eqb c ".." then removelast stack
  else (stack ++ [c])%list.

Definition key_from (base : list string) (p : string) : list string :=
  fold_left push_comp (PyStr.split_sep p) base.

Fixpoint is_prefix (a b : list string) : bool :=
  match a, b with
  | [], _ => true
  | x :: a', y :: b' => String.eqb x y && is_prefix a' b'
  | _ :: _, [] => false
  end.

(** Some entry lies strictly below [k]. *)
Definition has_entries_below (f : t) (k : list string) : bool :=
  existsb (λ e : list string * node,
             is_prefix k e.1 && negb (length e.1 =? length k)%nat)
          (map_to_list f).

(** Move the subtree rooted at [ks] to [kd]. *)
Definition move_tree (f : t) (ks kd : list string) : t :=
  list_to_map
    (map (λ e : list string * node,
            if is_prefix ks e.1 then ((kd ++ drop (length ks) e.1)%list, e.2) else e)
         (map_to_list (delete kd f))).

(** The walk along the components [comps] from the place [cur], for the
    path [p]: [ENOTDIR] when a component is taken from a regular file,
    [ENOENT] when it is taken from a place that does not exist. *)
Fixpoint walk (p : string) (f : t) (cur comps : list string)
  : result (list string) :=
  match comps with
  | [] => inr cur
  | c :: rest =>
      match lookup_node f cur with
      | Some Dir => walk p f (push_comp cur c) rest
      | Some (File _) => inl (NotADirectoryError p)
      | None => inl (FileNotFoundError p)
      end
  end.

(** The last component of a path, trailing separators aside; it is empty
    for a path of separators only. *)
Definition last_comp (p : string) : string :=
  List.last (PyStr.split_sep (PyStr.rstrip_sep p)) "".

(** The last component is a name: not empty, not [.] and not [..]. *)
Definition plain (p : string) : bool :=
  negb (String.eqb (last_comp p) "" || String.eqb (last_comp p) "."
        || String.eqb (last_comp p) "..").

(** The head and the tail [os.makedirs] works with: those of
    [os.path.split], split once more when the tail is empty. *)
Definition head_tail (name : string) : string * string :=
  let '(head, tail) := PosixPath.split name in
  if String.eqb tail "" then PosixPath.split head else (head, tail).

Section WithCwd.

Variable cwd : string.

(** The key a path stands for, read off its components alone. *)
Definition resolve (p : string) : option (list string) :=
  if String.eqb p "" then None
  else Some (key_from (if PyStr.startswith "/" p then [] else key_from [] cwd) p).

(** The place a path leads to in [f]: from the root for an absolute path,
    from the working directory otherwise.  The empty path leads
    nowhere. *)
Definition locate (f : t) (p : string) : result (list string) :=
  if String.eqb p "" then inl (FileNotFoundError p)
  else if PyStr.startswith "/" p then walk p f [] (PyStr.split_sep p)
  else match walk p f [] (PyStr.split_sep cwd) with
       | inl e => inl e
       | inr base => walk p f base (PyStr.split_sep p)
       end.

(** [os.path.exists] *)
Definition exists_ (f : t) (p : string) : bool :=
  match locate f p with
  | inr k => match lookup_node f k with Some _ => true | None => false end
  | inl _ => false
  end.

(** [os.path.isfile] *)
Definition isfile (f : t) (p : string) : bool :=
  match locate f p with
  | inr k => match lookup_node f k with Some (File _) => true | _ => false end
  | inl _ => false
  end.

(** [open(p).read()] *)
Definition read (f : t) (p : string) : result string :=
  match locate f p with
  | inr k =>
      match lookup_node f k with
      | Some (File c) => inr c
      | Some Dir => inl (IsADirectoryError p)
      | None => inl (FileNotFoundError p)
      end
  | inl e => inl e
  end.

(** [os.mkdir(p)]: trailing separators are ignored, the parent must be
    an existing directory and the entry must be new. *)
Definition mkdir (f : t) (p : string) : result t :=
  let p' := if PyStr.all_sep p then p else PyStr.rstrip_sep p in
  match locate f p' with
  | inl e => inl e
  | inr k =>
      if plain p then
        match lookup_node f k with
        | Some _ => inl (FileExistsError p)
        | None => inr (<[k := Dir]> f)
        end
      else inl (FileExistsError p)
  end.

(** [os.makedirs(name)] (with [exist_ok=False]), as the standard library
    writes it: the head of the path is made first when it does not
    exist, a [FileExistsError] of that inner call being passed over, and
    then the directory itself is made with [os.mkdir], unless the tail is
    [.].  What an inner call has made stays made when a later step
    raises.  The recursion is on the head, which is shorter than the
    path; [fuel] bounds its depth. *)
Fixpoint makedirs_rec (fuel : nat) (f : t) (name : string) : t * option exn :=
  match fuel with
  | 0 => (f, Some (Raised "RecursionError"))
  | S fuel' =>
      let '(head, tail) := head_tail name in
      let make (f1 : t) : t * option exn :=
        match mkdir f1 name with
        | inl e => (f1, Some e)
        | inr f2 => (f2, None)
        end in
      if negb (String.eqb head "") && negb (String.eqb tail "")
         && negb (exists_ f head)
      then
        match makedirs_rec fuel' f head with
        | (f1, None) | (f1, Some (FileExistsError _)) =>
            if String.eqb tail "." then (f1, None) else make f1
        | (f1, Some e) => (f1, Some e)
        end
      else make f
  end.

Definition makedirs (f : t) (name : string) : t * option exn :=
  makedirs_rec (S (String.length name)) f name.

(** [os.rename(src, dst)] *)
Definition rename (f : t) (src dst : string) : result t :=
  match locate f src with
  | inl e => inl e
  | inr ks =>
      match locate f dst with
      | inl e => inl e
      | inr kd =>
          if negb (plain src && plain dst) then inl (OSError "EBUSY")
          else
            match lookup_node f ks with
            | None => inl (FileNotFoundError src)
            | Some n =>
                if bool_decide (ks = kd) then inr f
                else
                  match n, lookup_node f kd with
                  | File _, Some Dir => inl (IsADirectoryError dst)
                  | File c, _ => inr (<[kd := File c]> (delete ks f))
                  | Dir, Some (File _) => inl (NotADirectoryError dst)
                  | Dir, _ =>
                      if is_prefix ks kd then inl (OSError "EINVAL")
                      else if has_entries_below f kd then inl (OSError "ENOTEMPTY")
                      else inr (move_tree f ks kd)
                  end
            end
      end
  end.

(** [os.rmdir(p)] *)
Definition rmdir (f : t) (p : string) : result t :=
  match locate f p with
  | inl e => inl e
  | inr k =>
      if String.eqb (last_comp p) ".." then inl (OSError "ENOTEMPTY")
      else if String.eqb (last_comp p) "." then inl (OSError "EINVAL")
      else if String.eqb (last_comp p) "" then inl (OSError "EBUSY")
      else
        match lookup_node f k with
        | None => inl (FileNotFoundError p)
        | Some (File _) => inl (NotADirectoryError p)
        | Some Dir =>
            if has_entries_below f k then inl (OSError "ENOTEMPTY")
            else inr (delete k f)
        end
  end.

End WithCwd.

End FS.

(** ** YAML values and the configuration dictionary *)

#[local] Unset Elimination Schemes.
Inductive yaml :=
  | YNull
  | YBool (b : bool)
  | YInt (z : Z)
  | YStr (s : string)
  | YSeq (l : list yaml)
  | YMap (m : gmap string yaml).
#[local] Set Elimination Schemes.

(** [v[k]] for a string key [k] *)
Definition getitem (v : yaml) (k : string) : result yaml :=
  match v with
  | YMap m => match m !! k with Some x => inr x | None => inl (KeyError k) end
  | _ => inl TypeError
  end.

(** [v[k] = x] for a string key [k] *)
Definition setitem (v : yaml) (k : string) (x : yaml) : result yaml :=
  match v with
  | YMap m => inr (YMap (<[k := x]> m))
  | _ => inl TypeError
  end.

(** [v == s] for a string literal [s] *)
Definition eq_str (v : yaml) (s : string) : bool :=
  match v with
  | YStr s' => String.eqb s' s
  | _ => false
  end.

(** The dictionary [{'out_postfix': 'seg', 'out_dir': out_folder}] *)
Definition output_section (out_folder : string) : yaml :=
  YMap (<["out_postfix" := YStr "seg"]> (<["out_dir" := YStr out_folder]> ∅)).

(** ** The state of a run and its monad

    The state holds the file system and the log of the calls the script
    has made so far to the inference routine and to [os.makedirs],
    [os.rename] and [os.rmdir], oldest first.  What the script does
    besides is not logged: the tests on paths, reading and parsing the
    configuration file, and printing.  An exception keeps the state
    reached when it was raised: nothing is rolled back. *)

Inductive event :=
  | EvInference (input_data : string) (config_info : gmap string yaml)
  | EvMakedirs (path : string)
  | EvRename (src dst : string)
  | EvRmdir (path : string).

Record state := mkState { st_fs : FS.t; st_trace : list event }.

Definition M (A : Type) : Type := state → state * result A.

Definition ret {A} (a : A) : M A := λ st, (st, inr a).

Definition raise {A} (e : exn) : M A := λ st, (st, inl e).

Definition bind {A B} (c : M A) (k : A → M B) : M B :=
  λ st, match c st with
        | (st', inr a) => k a st'
        | (st', inl e) => (st', inl e)
        end.

Notation "'let*' x ':=' c 'in' k" := (bind c (λ x, k))
  (at level 10, x name, c at level 100, k at level 200).

Definition lift {A} (r : result A) : M A := λ st, (st, r).

Definition log (e : event) (st : state) : state :=
  mkState (st_fs st) (st_trace st ++ [e]).

(** A system call that changes the file system: the call is logged, and
    the file system is replaced when the call succeeds. *)
Definition fs_call (e : event) (op : FS.t → result FS.t) : M unit :=
  λ st, match op (st_fs st) with
        | inr f' => (mkState f' (st_trace st ++ [e]), inr tt)
        | inl err => (log e st, inl err)
        end.

(** The calls to [run_inference] in a log, in order. *)
Fixpoint inference_calls (tr : list event) : list (string * gmap string yaml) :=
  match tr with
  | [] => []
  | EvInference img cfg :: tr' => (img, cfg) :: inference_calls tr'
  | _ :: tr' => inference_calls tr'
  end.

(** The command line, as [argparse] hands it over. *)
Record Args := mkArgs {
  input_names : list string;
  segment_output_names : list string;
  config_file : option string
}.

(** ** The script *)

(** The error of the [assert] on line 72. *)
Definition mismatch : exn :=
  AssertionError "The numbers of input output filenames do not match".

Section Script.

(** [monaifbs.__file__] and [os.getcwd()] *)
Variable monaifbs_file : string.
Variable cwd : string.

(** [yaml.load(f, Loader=yaml.FullLoader)] on the text of a file; [None]
    stands for a [YAMLError]. *)
Variable yaml_load : string → option yaml.

(** The external inference routine.  It receives the image path and the
    configuration dictionary, may change the file system, may mutate the
    dictionary it was handed, and may raise. *)
Variable run_inference :
  string → gmap string yaml → FS.t → FS.t * result (gmap string yaml).

Definition os_path_exists (p : string) : M bool :=
  λ st, (st, inr (FS.exists_ cwd (st_fs st) p)).

Definition os_path_isfile (p : string) : M bool :=
  λ st, (st, inr (FS.isfile cwd (st_fs st) p)).

Definition open_read (p : string) : M string :=
  λ st, (st, FS.read cwd (st_fs st) p).

Definition os_makedirs (p : string) : M unit :=
  λ st, let '(f', r) := FS.makedirs cwd (st_fs st) p in
        (mkState f' (st_trace st ++ [EvMakedirs p]),
         match r with
         | Some e => inl e
         | None => inr tt
         end).

Definition os_rename (src dst : string) : M unit :=
  fs_call (EvRename src dst) (λ f, FS.rename cwd f src dst).

Definition os_rmdir (p : string) : M unit :=
  fs_call (EvRmdir p) (λ f, FS.rmdir cwd f p).

Definition call_inference (img : string) (config : gmap string yaml)
  : M (gmap string yaml) :=
  λ st, let '(f', r) := run_inference img config (st_fs st) in
        (mkState f' (st_trace st ++ [EvInference img config]), r).

Definition package_dir : string := PosixPath.dirname monaifbs_file.

Definition default_config_file : string :=
  PosixPath.join package_dir ["config"; "monai_dynUnet_inference_config.yml"].

Definition default_model : string :=
  PosixPath.join package_dir ["models"; "checkpoint_dynUnet_DiceXent.pt"].

(** Lines 57-60: the path of the configuration file that is used. *)
Definition effective_config_file (arg : option string) : string :=
  match arg with
  | None => default_config_file
  | Some p => p
  end.

(** Lines 57-62: the path is settled and must name an existing file. *)
Definition resolve_config_file (arg : option string) : M string :=
  let config_file := effective_config_file arg in
  let* found := os_path_isfile config_file in
  if negb found
  then raise (FileNotFoundError ("Expected config file: " ++ config_file ++ " not found"))
  else ret config_file.

(** Lines 63-66: the file is read and parsed. *)
Definition read_config (config_file : string) : M yaml :=
  let* text := open_read config_file in
  match yaml_load text with
  | Some v => ret v
  | None => raise YAMLError
  end.

(** Lines 68-70: the sentinel ["default"] is replaced by the bundled
    checkpoint.  The nested dictionary is updated in place, so the change
    shows in [config].  From here on [config] is known to be a
    dictionary. *)
Definition resolve_model (config : yaml) : result (gmap string yaml) :=
  match config with
  | YMap m =>
      match getitem config "inference" with
      | inl e => inl e
      | inr inference =>
          match getitem inference "model_to_load" with
          | inl e => inl e
          | inr model =>
              if eq_str model "default" then
                match setitem inference "model_to_load" (YStr default_model) with
                | inl e => inl e
                | inr inference' => inr (<["inference" := inference']> m)
                end
              else inr m
          end
      end
  | _ => inl TypeError
  end.

(** Lines 57-70 *)
Definition load_config (arg : option string) : M (gmap string yaml) :=
  let* config_file := resolve_config_file arg in
  let* config := read_config config_file in
  lift (resolve_model config).

(** Lines 78-80 *)
Definition out_folder_of (seg : string) : string :=
  let out_folder := PosixPath.dirname seg in
  if String.eqb out_folder "" then cwd else out_folder.

(** Lines 78-82: the output folder, created when it does not exist. *)
Definition prepare_out_folder (seg : string) : M string :=
  let out_folder := out_folder_of seg in
  let* found := os_path_exists out_folder in
  let* _ := (if negb found then os_makedirs out_folder else ret tt) in
  ret out_folder.

(** Lines 89-95: the stripped file name and [flag_zip]. *)
Definition strip_extension (img : string) : string * bool :=
  let img_filename := PosixPath.basename img in
  if PyStr.contains "gz" img_filename
  then (PyStr.slice_to_neg 7 img_filename, true)
  else (PyStr.slice_to_neg 4 img_filename, false).

(** Lines 96-97 *)
Definition out_name (img_filename : string) (flag_zip : bool) (postfix : string) : string :=
  if flag_zip then img_filename ++ "_" ++ postfix ++ ".nii.gz"
  else img_filename ++ "_" ++ postfix ++ ".nii".

(** Lines 89-98: the path at which the inference output is expected. *)
Definition out_filename (out_folder img postfix : string) : string :=
  let '(img_filename, flag_zip) := strip_extension img in
  PosixPath.join out_folder [img_filename; out_name img_filename flag_zip postfix].

(** [config['output']['out_postfix']], as an operand of [+] on strings. *)
Definition out_postfix (config : gmap string yaml) : result string :=
  match getitem (YMap config) "output" with
  | inl e => inl e
  | inr output =>
      match getitem output "out_postfix" with
      | inl e => inl e
      | inr (YStr s) => inr s
      | inr _ => inl TypeError
      end
  end.

(** Lines 89-108: the finalizer. *)
Definition finalize (img seg out_folder : string) (config : gmap string yaml) : M unit :=
  let* postfix := lift (out_postfix config) in
  let out_filename := out_filename out_folder img postfix in
  let* found := os_path_exists out_filename in
  if negb found
  then raise (FileNotFoundError ("Network output file " ++ out_filename
                ++ " not found, check if the segmentation pipeline has failed"))
  else
    let* _ := os_rename out_filename seg in
    let* renamed := os_path_exists seg in
    if renamed
    then os_rmdir (PosixPath.join out_folder [(strip_extension img).1])
    else ret tt.

(** Lines 76-108: one iteration of the loop; the result is the
    configuration dictionary as the iteration leaves it. *)
Definition iteration (img seg : string) (config : gmap string yaml)
  : M (gmap string yaml) :=
  let* out_folder := prepare_out_folder seg in
  let config := <["output" := output_section out_folder]> config in
  let* config := call_inference img config in
  let* _ := finalize img seg out_folder config in
  ret config.

(** Line 75 *)
Fixpoint loop (pairs : list (string * string)) (config : gmap string yaml)
  : M (gmap string yaml) :=
  match pairs with
  | [] => ret config
  | (img, seg) :: rest =>
      let* config := iteration img seg config in
      loop rest config
  end.

(** Line 72.  The interpreter runs with assertions enabled. *)
Definition check_lengths (args : Args) : M unit :=
  if (length (input_names args) =? length (segment_output_names args))%nat
  then ret tt
  else raise mismatch.

(** Lines 56-108.  The result is the configuration dictionary at exit. *)
Definition main (args : Args) : M (gmap string yaml) :=
  let* config := load_config (config_file args) in
  let* _ := check_lengths args in
  loop (zip (input_names args) (segment_output_names args)) config.

End Script.

(** ** The naming convention of the inference output, as the specification
    words it

    The expected file is found under the output directory, in a subdirectory
    named after the base name of the input without its extension; its name
    is that base name with the [.nii] or [.nii.gz] extension stripped, then
    [_<postfix>], then the original extension. *)

Module Convention.

Definition split_ext (name : string) : string * string :=
  if PyStr.endswith ".nii.gz" name then (PyStr.slice_to_neg 7 name, ".nii.gz")
  else if PyStr.endswith ".nii" name then (PyStr.slice_to_neg 4 name, ".nii")
  else (name, "").

Definition expected_path (out_dir img postfix : string) : string :=
  let '(stem, ext) := split_ext (PosixPath.basename img) in
  PosixPath.join out_dir [stem; stem ++ "_" ++ postfix ++ ext].

End Convention.

(** ** A test double for the inference routine

    The double behaves as the script expects the routine to: it writes the
    file the naming convention asks for, creating its subdirectory, and it
    leaves the configuration alone. *)

Module Double.

Definition str_field (v : yaml) (k : string) : result string :=
  match getitem v k with
  | inr (YStr s) => inr s
  | inr _ => inl TypeError
  | inl e => inl e
  end.

Definition run_inference (cwd : string) (img : string)
    (config : gmap string yaml) (f : FS.t) : FS.t * result (gmap string yaml) :=
  match getitem (YMap config) "output" with
  | inl e => (f, inl e)
  | inr output =>
      match str_field output "out_dir", str_field output "out_postfix" with
      | inr out_dir, inr postfix =>
          let '(stem, ext) := Convention.split_ext (PosixPath.basename img) in
          let dir := PosixPath.join out_dir [stem] in
          match FS.resolve cwd dir with
          | Some k =>
              let name := stem ++ "_" ++ postfix ++ ext in
              let f1 := <[k := FS.Dir]> f in
              (<[(k ++ [name])%list := FS.File "mask"]> f1,
               inr config)
          | None => (f, inl (FileNotFoundError dir))
          end
      | inl e, _ | _, inl e => (f, inl e)
      end
  end.

Definition monaifbs_file : string := "/pkg/monaifbs/__init__.py".
Definition cwd : string := "/work".

Definition yaml_load (text : string) : option yaml :=
  if String.eqb text "inference: {model_to_load: default}"
  then Some (YMap {["inference" := YMap {["model_to_load" := YStr "default"]}]})
  else if String.eqb text "inference: {model_to_load: /models/own.pt}"
  then Some (YMap {["inference" := YMap {["model_to_load" := YStr "/models/own.pt"]}]})
  else None.

Definition disk : FS.t :=
  list_to_map
    [ (["pkg"], FS.Dir);
      (["pkg"; "monaifbs"], FS.Dir);
      (["pkg"; "monaifbs"; "config"], FS.Dir);
      (["pkg"; "monaifbs"; "config"; "monai_dynUnet_inference_config.yml"],
       FS.File "inference: {model_to_load: default}");
      (["work"], FS.Dir);
      (["work"; "own.yml"], FS.File "inference: {model_to_load: /models/own.pt}") ].

Definition start : state := mkState disk [].

Definition run (args : Args) : state * result (gmap string yaml) :=
  main monaifbs_file cwd yaml_load (run_inference cwd) args start.

(** The configuration at the end of a run, empty if the run failed. *)
Definition final_config (args : Args) : gmap string yaml :=
  match (run args).2 with
  | inr config => config
  | inl _ => ∅
  end.

(** The configuration as the loop hands it to the inference routine for
    an output in the folder [out]. *)
Definition config_out : gmap string yaml :=
  <["output" := output_section "out"]>
    {["inference" := YMap {["model_to_load" := YStr "/models/own.pt"]}]}.

(** The configuration of a run on the bundled configuration file, as the
    loop hands it to the inference routine for an output in [out]. *)
Definition config_run : gmap string yaml :=
  <["output" := output_section "out"]>
    {["inference" :=
        YMap {["model_to_load" :=
                 YStr "/pkg/monaifbs/models/checkpoint_dynUnet_DiceXent.pt"]}]}.

(** The disk after an inference on [case1.nii.gz] into the folder [out],
    and the disk the finalizer is to leave behind. *)
Definition produced : FS.t :=
  <[["work"; "out"; "case1"; "case1_seg.nii.gz"] := FS.File "mask"]>
    (<[["work"; "out"; "case1"] := FS.Dir]> (<[["work"; "out"] := FS.Dir]> disk)).

Definition finalized : FS.t :=
  <[["work"; "out"; "case1_mask.nii.gz"] := FS.File "mask"]>
    (<[["work"; "out"] := FS.Dir]> disk).

(** The disk after the finalizer has moved the mask to [out/mask.nii.gz]. *)
Definition finalized_in_out : FS.t :=
  <[["work"; "out"; "mask.nii.gz"] := FS.File "mask"]>
    (<[["work"; "out"] := FS.Dir]> disk).

(** The disk after an inference that has left a second file in the
    subdirectory. *)
Definition crowded : FS.t :=
  <[["work"; "out"; "case1"; "notes.txt"] := FS.File "log"]> produced.

(** A disk on which the expected path is a directory, and an inference
    routine that does nothing. *)
Definition nested : FS.t :=
  <[["work"; "out"; "case1"; "case1_seg.nii.gz"] := FS.Dir]>
    (<[["work"; "out"; "case1"] := FS.Dir]> (<[["work"; "out"] := FS.Dir]> disk)).

Definition idle (img : string) (config : gmap string yaml) (f : FS.t)
  : FS.t * result (gmap string yaml) := (f, inr config).

(** Command lines used in the examples. *)
Definition two_args : Args :=
  mkArgs ["case1.nii.gz"; "in/case2.nii"]
         ["out/case1_mask.nii.gz"; "case2_mask.nii"] None.

Definition one_args : Args :=
  mkArgs ["case1.nii.gz"] ["out/case1_mask.nii.gz"] None.

Definition short_args : Args :=
  mkArgs ["case1.nii.gz"] ["out/case1_mask.nii.gz"; "case2_mask.nii"] None.

Definition lost_args : Args :=
  mkArgs ["case1.nii.gz"] ["out/case1_mask.nii.gz"; "case2_mask.nii"]
         (Some "nope.yml").

Definition gz_args : Args :=
  mkArgs ["gz_case2.nii"] ["out/case2_mask.nii"] None.

End Double.

(** ** Notions used in the statements *)

(** A computation is quiet when it makes no inference call. *)
Definition quiet {A} (c : M A) : Prop :=
  ∀ st, inference_calls (st_trace (c st).1) = inference_calls (st_trace st).

(** What the log must show for the call made on behalf of a pair: the
    image of the pair, an output section for the folder of its output name,
    and a configuration that satisfies [I]. *)
Definition call_for (cwd : string) (I : gmap string yaml → Prop)
    (call : string * gmap string yaml) (pair : string * string) : Prop :=
  call.1 = pair.1
  ∧ call.2 !! "output" = Some (output_section (out_folder_of cwd pair.2))
  ∧ I call.2.

(** * Properties *)

(** ** Worked examples of the path helpers *)

Example basename_ex : PosixPath.basename "data/in/case1.nii.gz" = "case1.nii.gz".
Proof. reflexivity. Qed.
Example dirname_ex : PosixPath.dirname "out/case1_mask.nii.gz" = "out".
Proof. reflexivity. Qed.
Example dirname_none_ex : PosixPath.dirname "mask.nii.gz" = "".
Proof. reflexivity. Qed.
Example dirname_root_ex : PosixPath.dirname "/mask.nii.gz" = "/".
Proof. reflexivity. Qed.
Example dirname_strip_ex : PosixPath.dirname "out//m.nii" = "out".
Proof. reflexivity. Qed.
Example join_ex : PosixPath.join "out" ["case1"; "case1_seg.nii.gz"] = "out/case1/case1_seg.nii.gz".
Proof. reflexivity. Qed.
Example join_empty_ex : PosixPath.join "out" [""; "_seg.nii"] = "out/_seg.nii".
Proof. reflexivity. Qed.
Example slice_ex : PyStr.slice_to_neg 7 "case1.nii.gz" = "case1".
Proof. reflexivity. Qed.
Example slice_short_ex : PyStr.slice_to_neg 4 "ab" = "".
Proof. reflexivity. Qed.
Example contains_ex : PyStr.contains "gz" "case1.nii.gz" = true.
Proof. reflexivity. Qed.
Example split_ex : PyStr.split_sep "/a//b/" = [""; "a"; ""; "b"; ""].
Proof. reflexivity. Qed.

(** ** Strings *)

Module PyStrFacts.
Import PyStr.

Lemma app_cons c a b : String c a ++ b = String c (a ++ b).
Proof. reflexivity. Qed.

Lemma take_drop n s : take n s ++ drop n s = s.
Proof.
  revert s. induction n as [|n IH]; intros [|c r]; simpl; try reflexivity.
  rewrite app_cons. f_equal. apply IH.
Qed.

Lemma length_app a b : String.length (a ++ b) = String.length a + String.length b.
Proof.
  induction a as [|c a IH]; [reflexivity |].
  rewrite app_cons. simpl. by rewrite IH.
Qed.

Lemma take_app_length a b :
  take (String.length (a ++ b) - String.length b) (a ++ b) = a.
Proof.
  rewrite length_app.
  replace (String.length a + String.length b - String.length b)
    with (String.length a) by lia.
  induction a as [|c a IH].
  - by destruct b.
  - rewrite app_cons. simpl. f_equal. exact IH.
Qed.

Lemma drop_app_length a b :
  drop (String.length (a ++ b) - String.length b) (a ++ b) = b.
Proof.
  rewrite length_app.
  replace (String.length a + String.length b - String.length b)
    with (String.length a) by lia.
  induction a as [|c a IH]; [by destruct b |].
  rewrite app_cons. exact IH.
Qed.

Lemma contains_app_r needle a b :
  contains needle b = true → contains needle (a ++ b) = true.
Proof.
  intros Hb. induction a as [|c a IH]; [exact Hb |].
  rewrite app_cons. simpl. rewrite IH. apply orb_true_r.
Qed.

Lemma endswith_app p a : endswith p (a ++ p) = true.
Proof.
  unfold endswith. rewrite drop_app_length, String.eqb_refl. simpl.
  apply Nat.leb_le. rewrite length_app. lia.
Qed.

Lemma endswith_inv p s : endswith p s = true → ∃ a, s = a ++ p.
Proof.
  unfold endswith. intros [H _]%andb_true_iff. apply String.eqb_eq in H.
  set (k := String.length s - String.length p) in H.
  exists (take k s). rewrite <- (take_drop k s) at 1. by rewrite H.
Qed.

End PyStrFacts.

(** ** The expected output name on well-formed inputs *)

(** For a base name [<stem>.nii.gz] the script expects exactly the file the
    naming convention asks for. *)
Lemma out_filename_nii_gz (out_folder img stem postfix : string) :
  PosixPath.basename img = stem ++ ".nii.gz" →
  out_filename out_folder img postfix
  = PosixPath.join out_folder [stem; stem ++ "_" ++ postfix ++ ".nii.gz"]
  ∧ out_filename out_folder img postfix
    = Convention.expected_path out_folder img postfix.
Proof.
  intros Hb. unfold out_filename, strip_extension, Convention.expected_path,
    Convention.split_ext. rewrite Hb.
  rewrite (PyStrFacts.contains_app_r "gz" stem ".nii.gz") by reflexivity.
  rewrite (PyStrFacts.endswith_app ".nii.gz" stem).
  unfold PyStr.slice_to_neg.
  change 7 with (String.length ".nii.gz").
  rewrite PyStrFacts.take_app_length. by split.
Qed.

(** For a base name [<stem>.nii] that has no [gz] in it the script expects
    exactly the file the naming convention asks for. *)
Lemma out_filename_nii (out_folder img stem postfix : string) :
  PosixPath.basename img = stem ++ ".nii" →
  PyStr.contains "gz" (PosixPath.basename img) = false →
  out_filename out_folder img postfix
  = PosixPath.join out_folder [stem; stem ++ "_" ++ postfix ++ ".nii"]
  ∧ out_filename out_folder img postfix
    = Convention.expected_path out_folder img postfix.
Proof.
  intros Hb Hgz. unfold out_filename, strip_extension, Convention.expected_path,
    Convention.split_ext. rewrite Hgz. rewrite Hb in *.
  destruct (PyStr.endswith ".nii.gz" (stem ++ ".nii")) eqn:Hend.
  { apply PyStrFacts.endswith_inv in Hend as [a Ha].
    rewrite Ha, (PyStrFacts.contains_app_r "gz" a ".nii.gz") in Hgz by reflexivity.
    discriminate. }
  rewrite (PyStrFacts.endswith_app ".nii" stem).
  unfold PyStr.slice_to_neg.
  change 4 with (String.length ".nii").
  rewrite PyStrFacts.take_app_length. by split.
Qed.

(** From here on [++] is the append of lists; strings are appended with
    [+:+]. *)
Open Scope list_scope.

(** ** Loading the configuration *)

Lemma eq_str_true (v : yaml) (s : string) : eq_str v s = true ↔ v = YStr s.
Proof.
  destruct v; simpl; try (split; [discriminate | congruence]).
  rewrite String.eqb_eq. split; congruence.
Qed.

Lemma eq_str_false (v : yaml) (s : string) : v ≠ YStr s → eq_str v s = false.
Proof.
  intros Hne. destruct (eq_str v s) eqn:E; [|reflexivity].
  by apply eq_str_true in E.
Qed.

Lemma read_isfile (cwd : string) (f : FS.t) (p : string) :
  FS.isfile cwd f p = true → ∃ text, FS.read cwd f p = inr text.
Proof.
  unfold FS.isfile, FS.read. destruct (FS.locate cwd f p) as [e|k]; [discriminate |].
  destruct (FS.lookup_node f k) as [[c|]|]; try discriminate. eauto.
Qed.

Ltac unfold_monad :=
  unfold bind, ret, raise, lift, os_path_isfile, os_path_exists, open_read.

Section Config.

Variables monaifbs_file cwd : string.
Variable yaml_load : string → option yaml.

Local Abbreviation load_config' := (load_config monaifbs_file cwd yaml_load).

Lemma resolve_model_not_missing_file (config : yaml) (msg : string) :
  resolve_model monaifbs_file config ≠ inl (FileNotFoundError msg).
Proof.
  unfold resolve_model, getitem, setitem.
  destruct config as [| | | | |m]; try discriminate.
  destruct (m !! "inference") as [[| | | | |inf]|]; try discriminate.
  destruct (inf !! "model_to_load") as [v|]; try discriminate.
  destruct (eq_str v "default"); discriminate.
Qed.

(** Loading the configuration only reads: the state is left as it was. *)
Lemma load_config_state (arg : option string) (st : state) :
  (load_config' arg st).1 = st.
Proof.
  unfold load_config, resolve_config_file, read_config. unfold_monad.
  destruct (FS.isfile _ _ _); simpl; [|reflexivity].
  destruct (FS.read _ _ _); simpl; [reflexivity|].
  destruct (yaml_load _); reflexivity.
Qed.

Lemma load_config_missing (arg : option string) (st : state) :
  FS.isfile cwd (st_fs st) (effective_config_file monaifbs_file arg) = false →
  load_config' arg st
  = (st, inl (FileNotFoundError
                ("Expected config file: "
                 +:+ effective_config_file monaifbs_file arg +:+ " not found"))).
Proof.
  intros H. unfold load_config, resolve_config_file. unfold_monad.
  by rewrite H.
Qed.

Lemma load_config_found (arg : option string) (st : state) (msg : string) :
  FS.isfile cwd (st_fs st) (effective_config_file monaifbs_file arg) = true →
  (load_config' arg st).2 ≠ inl (FileNotFoundError msg).
Proof.
  intros H. unfold load_config, resolve_config_file, read_config. unfold_monad.
  rewrite H. simpl.
  destruct (read_isfile _ _ _ H) as [text ->]. simpl.
  destruct (yaml_load text) as [v|]; simpl; [|discriminate].
  apply resolve_model_not_missing_file.
Qed.

End Config.

(** ** The log of inference calls *)

Lemma inference_calls_app (a b : list event) :
  inference_calls (a ++ b) = inference_calls a ++ inference_calls b.
Proof.
  induction a as [|e a IH]; [reflexivity |].
  destruct e; simpl; by rewrite ?IH.
Qed.

Lemma quiet_ret {A} (a : A) : quiet (ret a).
Proof. by intros st. Qed.

Lemma quiet_raise {A} (e : exn) : quiet (raise (A := A) e).
Proof. by intros st. Qed.

Lemma quiet_lift {A} (r : result A) : quiet (lift r).
Proof. by intros st. Qed.

Lemma quiet_bind {A B} (c : M A) (k : A → M B) :
  quiet c → (∀ a, quiet (k a)) → quiet (bind c k).
Proof.
  intros Hc Hk st. unfold bind. specialize (Hc st).
  destruct (c st) as [st' [e|a]]; simpl in *; [exact Hc |].
  by rewrite Hk.
Qed.

Lemma quiet_fs_call (e : event) (op : FS.t → result FS.t) :
  inference_calls [e] = [] → quiet (fs_call e op).
Proof.
  intros He st. unfold fs_call, log.
  destruct (op (st_fs st)); simpl; rewrite inference_calls_app, He;
    apply app_nil_r.
Qed.

Lemma quiet_os_makedirs (cwd p : string) : quiet (os_makedirs cwd p).
Proof.
  intros st. unfold os_makedirs.
  destruct (FS.makedirs cwd (st_fs st) p) as [f' r]. simpl.
  rewrite inference_calls_app. apply app_nil_r.
Qed.

Create HintDb quiet.
#[local] Hint Resolve quiet_ret quiet_raise quiet_lift quiet_fs_call : quiet.

Ltac quiet_step :=
  match goal with
  | |- quiet (bind _ _) => apply quiet_bind; [| intros ?]
  | |- quiet (if ?b then _ else _) => destruct b
  | |- quiet (fs_call _ _) => apply quiet_fs_call; reflexivity
  | |- quiet (os_makedirs _ _) => apply quiet_os_makedirs
  | |- quiet _ => solve [eauto with quiet]
  | |- quiet _ => intros ?; reflexivity
  end.

Section Quiet.

Variable cwd : string.

Lemma quiet_prepare_out_folder (seg : string) : quiet (prepare_out_folder cwd seg).
Proof.
  unfold prepare_out_folder. repeat quiet_step.
Qed.

Lemma quiet_finalize (img seg out_folder : string) (config : gmap string yaml) :
  quiet (finalize cwd img seg out_folder config).
Proof.
  unfold finalize, os_rename, os_rmdir. repeat quiet_step.
Qed.

Lemma prepare_out_folder_result (seg : string) (st : state) (d : string) :
  (prepare_out_folder cwd seg st).2 = inr d → d = out_folder_of cwd seg.
Proof.
  unfold prepare_out_folder, os_makedirs. unfold_monad.
  destruct (FS.exists_ _ _ _); simpl; [congruence |].
  destruct (FS.makedirs _ _ _) as [f' [e|]]; simpl; [discriminate | congruence].
Qed.

End Quiet.

(** ** The loop, call by call *)

Section Iteration.

Variable cwd : string.
Variable run_inference :
  string → gmap string yaml → FS.t → FS.t * result (gmap string yaml).

(** An iteration either fails before the inference, or makes exactly one
    inference call, on the image and on the configuration it received
    with ['output'] reassigned; the call is made on the file system the
    preparation of the output folder left, and the configuration the
    iteration ends with is the one that call gave back. *)
Lemma iteration_config (img seg : string) (config : gmap string yaml) (st : state) :
  let r := iteration cwd run_inference img seg config st in
  let c := <["output" := output_section (out_folder_of cwd seg)]> config in
  let prepared := (prepare_out_folder cwd seg st).1 in
  (inference_calls (st_trace r.1) = inference_calls (st_trace st)
   ∧ ∃ e, r.2 = inl e)
  ∨ (inference_calls (st_trace r.1) = inference_calls (st_trace st) ++ [(img, c)]
     ∧ ∀ config', r.2 = inr config' →
         (run_inference img c (st_fs prepared)).2 = inr config').
Proof.
  intros r c prepared. unfold iteration, call_inference, bind in r. subst r.
  subst prepared.
  pose proof (quiet_prepare_out_folder cwd seg st) as Hq.
  pose proof (prepare_out_folder_result cwd seg st) as Hd.
  destruct (prepare_out_folder cwd seg st) as [st1 [e|d]]; simpl in *.
  { left. split; [exact Hq | by exists e]. }
  rewrite (Hd d eq_refl). clear Hd. right. fold c.
  destruct (run_inference img c (st_fs st1)) as [f' [e|c']] eqn:Hrun; simpl.
  { rewrite inference_calls_app, Hq. split; [reflexivity | discriminate]. }
  pose proof (quiet_finalize cwd img seg (out_folder_of cwd seg) c'
                (mkState f' (st_trace st1 ++ [EvInference img c]))) as Hf.
  destruct (finalize _ _ _ _ _ _) as [st2 [e|[]]]; simpl in *;
    rewrite Hf, inference_calls_app, Hq;
    (split; [reflexivity |]); [discriminate |].
  by intros ? [= <-].
Qed.

End Iteration.

Section Loop.

Variable cwd : string.
Variable run_inference :
  string → gmap string yaml → FS.t → FS.t * result (gmap string yaml).

(** A property of configuration dictionaries that survives the
    assignment to [config['output']] and the inference routine. *)
Variable I : gmap string yaml → Prop.
Hypothesis I_output : ∀ c v, I c → I (<["output" := v]> c).
Hypothesis I_inference :
  ∀ img c f f' c', I c → run_inference img c f = (f', inr c') → I c'.

Lemma iteration_calls (img seg : string) (config : gmap string yaml) (st : state) :
  I config →
  let r := iteration cwd run_inference img seg config st in
  (inference_calls (st_trace r.1) = inference_calls (st_trace st)
   ∧ ∃ e, r.2 = inl e)
  ∨ (∃ call, inference_calls (st_trace r.1) = inference_calls (st_trace st) ++ [call]
      ∧ call_for cwd I call (img, seg)
      ∧ ∀ config', r.2 = inr config' → I config').
Proof.
  intros HI r. subst r.
  destruct (iteration_config cwd run_inference img seg config st)
    as [Hfail | [Htr Hres]]; [by left | right].
  eexists. split; [exact Htr |]. split.
  - split; [reflexivity |]. split; [apply lookup_insert_eq | by apply I_output].
  - intros config' Hr. pose proof (Hres _ Hr) as Hrun.
    destruct (run_inference img _ _) as [f' r'] eqn:E. simpl in Hrun. subst r'.
    apply (I_inference _ _ _ _ _ (I_output _ _ HI) E).
Qed.

Lemma loop_calls (pairs : list (string * string)) :
  ∀ (config : gmap string yaml) (st : state),
  I config →
  let r := loop cwd run_inference pairs config st in
  ∃ calls,
    inference_calls (st_trace r.1) = inference_calls (st_trace st) ++ calls
    ∧ Forall2 (call_for cwd I) calls (take (length calls) pairs)
    ∧ ∀ config', r.2 = inr config' → length calls = length pairs ∧ I config'.
Proof.
  induction pairs as [|[img seg] rest IH]; intros config st HI r; subst r; simpl.
  { exists []. rewrite app_nil_r. split; [reflexivity |].
    split; [constructor |]. by intros ? [= <-]. }
  unfold bind.
  destruct (iteration_calls img seg config st HI)
    as [[Htr [e He]] | (call & Htr & Hcall & Hres)].
  - destruct (iteration _ _ _ _ _ _) as [st1 r1]; simpl in *. subst r1.
    exists []. rewrite app_nil_r. split; [exact Htr |].
    split; [constructor | discriminate].
  - destruct (iteration _ _ _ _ _ _) as [st1 [e|config1]]; simpl in *.
    + exists [call]. split; [exact Htr |].
      split; [| discriminate].
      constructor; [exact Hcall | constructor].
    + destruct (IH config1 st1 (Hres _ eq_refl)) as (calls & Htr' & Hall & Hok).
      exists (call :: calls). rewrite Htr', Htr, <- app_assoc.
      split; [reflexivity |].
      split; [constructor; [exact Hcall | exact Hall] |].
      intros config' Hr. destruct (Hok _ Hr) as [Hlen HI']. simpl.
      by rewrite Hlen.
Qed.

End Loop.

(** ** Paths and their keys *)

Module PathFacts.
Import PyStr.

Lemma append_assoc (a b c : string) : (a +:+ b) +:+ c = a +:+ (b +:+ c).
Proof.
  induction a as [|x a IH]; [reflexivity |].
  rewrite !PyStrFacts.app_cons. by rewrite IH.
Qed.

Lemma append_nil_r (a : string) : a +:+ "" = a.
Proof.
  induction a as [|x a IH]; [reflexivity |].
  rewrite PyStrFacts.app_cons. by rewrite IH.
Qed.

Lemma contains_sep_cons (c : ascii) (r : string) :
  contains "/" (String c r) = Ascii.eqb c "/" || contains "/" r.
Proof. simpl. by rewrite andb_true_r, (Ascii.eqb_sym c). Qed.

Lemma no_sep_app (a b : string) :
  contains "/" a = false → contains "/" b = false →
  contains "/" (a +:+ b) = false.
Proof.
  intros Ha Hb. induction a as [|c a IH]; [exact Hb |].
  rewrite PyStrFacts.app_cons, contains_sep_cons in *.
  apply orb_false_iff in Ha as [Hc Ha]. rewrite Hc. simpl. by apply IH.
Qed.

Lemma no_sep_take (n : nat) (s : string) :
  contains "/" s = false → contains "/" (take n s) = false.
Proof.
  revert s. induction n as [|n IH]; intros [|c r] H; try reflexivity.
  simpl take. rewrite contains_sep_cons in *.
  apply orb_false_iff in H as [Hc Hr]. rewrite Hc. simpl. by apply IH.
Qed.

Lemma rfind_zero_no_sep (s : string) :
  rfind_sep_succ s = 0 → contains "/" s = false.
Proof.
  induction s as [|c r IH]; [reflexivity |]. simpl rfind_sep_succ.
  destruct (rfind_sep_succ r); [| discriminate].
  destruct (Ascii.eqb c "/") eqn:Hc; [discriminate |]. intros _.
  rewrite contains_sep_cons, Hc. simpl. by apply IH.
Qed.

(** A base name has no separator in it. *)
Lemma basename_no_sep (p : string) : contains "/" (PosixPath.basename p) = false.
Proof.
  unfold PosixPath.basename. induction p as [|c r IH]; [reflexivity |].
  simpl rfind_sep_succ. destruct (rfind_sep_succ r) as [|i] eqn:Hr.
  - destruct (Ascii.eqb c "/") eqn:Hc.
    + simpl. destruct r; by apply rfind_zero_no_sep.
    + simpl drop. rewrite contains_sep_cons, Hc. by apply rfind_zero_no_sep.
  - exact IH.
Qed.

Lemma no_sep_startswith (s : string) :
  contains "/" s = false → startswith "/" s = false.
Proof. destruct s; simpl; [done |]. by intros [? _]%orb_false_iff. Qed.

Lemma split_sep_nonempty (s : string) : split_sep s ≠ [].
Proof.
  induction s as [|c r IH]; [done |]. simpl.
  destruct (Ascii.eqb c "/"); [done |]. by destruct (split_sep r).
Qed.

Lemma split_no_sep (s : string) : contains "/" s = false → split_sep s = [s].
Proof.
  induction s as [|c r IH]; [reflexivity |]. rewrite contains_sep_cons.
  intros [Hc Hr]%orb_false_iff. simpl. by rewrite Hc, (IH Hr).
Qed.

Lemma split_sep_app (a b : string) :
  split_sep (a +:+ "/" +:+ b) = split_sep a ++ split_sep b.
Proof.
  induction a as [|c a IH]; [reflexivity |].
  rewrite PyStrFacts.app_cons. simpl. rewrite IH.
  destruct (Ascii.eqb c "/"); [reflexivity |].
  pose proof (split_sep_nonempty a). by destruct (split_sep a).
Qed.

Lemma key_from_sep (base : list string) (path name : string) :
  FS.key_from base (path +:+ "/" +:+ name)
  = fold_left FS.push_comp (split_sep name) (FS.key_from base path).
Proof. unfold FS.key_from. by rewrite split_sep_app, fold_left_app. Qed.

Lemma key_from_trailing_sep (base : list string) (path : string) :
  FS.key_from base (path +:+ "/") = FS.key_from base path.
Proof.
  change (path +:+ "/") with (path +:+ "/" +:+ "").
  by rewrite key_from_sep.
Qed.

Lemma key_from_name (base : list string) (path name : string) :
  contains "/" name = false →
  FS.key_from base (path +:+ "/" +:+ name)
  = FS.push_comp (FS.key_from base path) name.
Proof. intros Hname. by rewrite key_from_sep, (split_no_sep _ Hname). Qed.

Lemma startswith_app (path rest : string) :
  path ≠ "" → startswith "/" (path +:+ rest) = startswith "/" path.
Proof. destruct path; [done |]. intros _. reflexivity. Qed.

Lemma append_not_empty (path rest : string) : path ≠ "" → path +:+ rest ≠ "".
Proof. by destruct path. Qed.

Lemma resolve_not_empty (cwd path : string) :
  path ≠ "" →
  FS.resolve cwd path
  = Some (FS.key_from (if startswith "/" path then [] else FS.key_from [] cwd) path).
Proof.
  intros Hne. unfold FS.resolve.
  destruct (String.eqb path "") eqn:E; [| reflexivity].
  by apply String.eqb_eq in E.
Qed.

(** A path with one more component [name] resolves to the key of the path
    extended by what [name] adds: itself when it is a plain name, nothing
    when it is empty. *)
Lemma resolve_join2 (cwd path name : string) :
  path ≠ "" →
  contains "/" name = false →
  PosixPath.join2 path name ≠ ""
  ∧ FS.resolve cwd (PosixPath.join2 path name)
    = (λ k, FS.push_comp k name) <$> FS.resolve cwd path.
Proof.
  intros Hne Hname. unfold PosixPath.join2.
  rewrite (no_sep_startswith _ Hname).
  destruct (String.eqb path "") eqn:E; [by apply String.eqb_eq in E |].
  simpl orb. rewrite (resolve_not_empty cwd path Hne). simpl fmap.
  destruct (endswith "/" path) eqn:Hend.
  - apply PyStrFacts.endswith_inv in Hend as [path' ->].
    split; [by apply append_not_empty |].
    rewrite resolve_not_empty by (by apply append_not_empty).
    rewrite startswith_app by done. f_equal.
    by rewrite append_assoc, (key_from_name _ _ _ Hname), key_from_trailing_sep.
  - split; [by apply append_not_empty |].
    rewrite resolve_not_empty by (by apply append_not_empty).
    rewrite startswith_app by done. f_equal.
    by apply key_from_name.
Qed.

End PathFacts.

(** ** Walking the file system *)

Module FSFacts.
Import PyStr.

Lemma split_all_sep (t : string) :
  all_sep t = true → split_sep t = repeat "" (S (String.length t)).
Proof.
  induction t as [|c t IH]; [reflexivity |]. simpl.
  intros [Hc Ht]%andb_true_iff. rewrite Hc. f_equal. by apply IH.
Qed.

Lemma split_sep_trailing (a t : string) :
  all_sep t = true →
  split_sep (a +:+ t) = split_sep a ++ repeat "" (String.length t).
Proof.
  destruct t as [|c t]; simpl.
  - intros _. by rewrite PathFacts.append_nil_r, app_nil_r.
  - intros [Hc Ht]%andb_true_iff. apply Ascii.eqb_eq in Hc. subst c.
    change (a +:+ String "/" t) with (a +:+ "/" +:+ t).
    by rewrite PathFacts.split_sep_app, (split_all_sep t Ht).
Qed.

(** A string is what [rstrip('/')] leaves of it, followed by separators. *)
Lemma rstrip_sep_decomp (s : string) :
  ∃ t, s = rstrip_sep s +:+ t ∧ all_sep t = true.
Proof.
  induction s as [|c s (t & Hs & Ht)]; [by exists "" |]. simpl.
  destruct (rstrip_sep s) as [|c' r] eqn:Hr.
  - destruct (Ascii.eqb c "/") eqn:Hc.
    + exists (String c s). split; [reflexivity |]. simpl. rewrite Hc.
      simpl in Hs. by subst s.
    + exists t. split; [| exact Ht]. simpl in Hs. by subst s.
  - exists t. split; [| exact Ht]. rewrite PyStrFacts.app_cons. by f_equal.
Qed.

Lemma walk_key (p : string) (f : FS.t) (comps : list string) :
  ∀ cur k, FS.walk p f cur comps = inr k → k = fold_left FS.push_comp comps cur.
Proof.
  induction comps as [|c comps IH]; intros cur k; simpl; [by intros [= ->] |].
  destruct (FS.lookup_node f cur) as [[?|]|]; try discriminate. apply IH.
Qed.

Lemma walk_app (p : string) (f : FS.t) (l1 l2 : list string) :
  ∀ cur, FS.walk p f cur (l1 ++ l2)
         = match FS.walk p f cur l1 with
           | inr k => FS.walk p f k l2
           | inl e => inl e
           end.
Proof.
  induction l1 as [|c l1 IH]; intros cur; simpl; [reflexivity |].
  destruct (FS.lookup_node f cur) as [[?|]|]; try reflexivity. apply IH.
Qed.

(** Directories that stay directories keep every walk. *)
Lemma walk_mono (p : string) (f f' : FS.t) (comps : list string) :
  (∀ k, FS.lookup_node f k = Some FS.Dir → FS.lookup_node f' k = Some FS.Dir) →
  ∀ cur k, FS.walk p f cur comps = inr k → FS.walk p f' cur comps = inr k.
Proof.
  intros Hdir. induction comps as [|c comps IH]; intros cur k; simpl; [done |].
  destruct (FS.lookup_node f cur) as [[?|]|] eqn:E; try discriminate.
  rewrite (Hdir _ E). apply IH.
Qed.

Lemma fold_push_empty (n : nat) (k : list string) :
  fold_left FS.push_comp (repeat "" n) k = k.
Proof. induction n as [|n IH]; [reflexivity | exact IH]. Qed.

Lemma walk_empty_comps (p : string) (f : FS.t) (k : list string) (n : nat) :
  FS.lookup_node f k = Some FS.Dir → FS.walk p f k (repeat "" n) = inr k.
Proof.
  intros Hk. induction n as [|n IH]; [reflexivity |]. simpl. by rewrite Hk.
Qed.

Section WithCwd.

Variable cwd : string.

(** The place a path leads to is the key its components stand for. *)
Lemma locate_resolve (f : FS.t) (p : string) (k : list string) :
  FS.locate cwd f p = inr k → FS.resolve cwd p = Some k.
Proof.
  unfold FS.locate, FS.resolve, FS.key_from.
  destruct (String.eqb p ""); [discriminate |].
  destruct (startswith "/" p).
  - intros H. by rewrite (walk_key _ _ _ _ _ H).
  - destruct (FS.walk p f [] (split_sep cwd)) as [e|base] eqn:Hb; [discriminate |].
    intros H. by rewrite (walk_key _ _ _ _ _ H), (walk_key _ _ _ _ _ Hb).
Qed.

Lemma locate_mono (f f' : FS.t) (p : string) (k : list string) :
  (∀ k, FS.lookup_node f k = Some FS.Dir → FS.lookup_node f' k = Some FS.Dir) →
  FS.locate cwd f p = inr k → FS.locate cwd f' p = inr k.
Proof.
  intros Hdir. unfold FS.locate.
  destruct (String.eqb p ""); [discriminate |].
  destruct (startswith "/" p); [by apply walk_mono |].
  destruct (FS.walk p f [] (split_sep cwd)) as [e|base] eqn:Hb; [discriminate |].
  rewrite (walk_mono _ _ _ _ Hdir _ _ Hb). by apply walk_mono.
Qed.

(** Trailing separators change nothing once the place is a directory. *)
Lemma locate_trailing (f : FS.t) (p t : string) (k : list string) :
  p ≠ "" → all_sep t = true →
  FS.locate cwd f p = inr k → FS.lookup_node f k = Some FS.Dir →
  FS.locate cwd f (p +:+ t) = inr k.
Proof.
  intros Hp Ht. unfold FS.locate.
  destruct (String.eqb p "") eqn:E; [by apply String.eqb_eq in E |].
  destruct (String.eqb (p +:+ t) "") eqn:E';
    [apply String.eqb_eq in E'; by destruct p |].
  rewrite (PathFacts.startswith_app p t Hp), (split_sep_trailing p t Ht).
  assert (Hwalk : ∀ base, FS.walk p f base (split_sep p) = inr k →
                          FS.lookup_node f k = Some FS.Dir →
                          FS.walk (p +:+ t) f base
                            (split_sep p ++ repeat "" (String.length t)) = inr k).
  { intros base Hw Hk. rewrite walk_app.
    assert (Hsame : ∀ q cur comps, FS.walk p f cur comps = inr k →
                                   FS.walk q f cur comps = inr k).
    { intros q cur comps. revert cur. induction comps as [|c comps IH];
        intros cur; simpl; [done |].
      destruct (FS.lookup_node f cur) as [[?|]|]; try discriminate. apply IH. }
    rewrite (Hsame _ _ _ Hw). by apply walk_empty_comps. }
  destruct (startswith "/" p); [apply Hwalk |].
  destruct (FS.walk p f [] (split_sep cwd)) as [e|base] eqn:Hb; [discriminate |].
  assert (Hbase : FS.walk (p +:+ t) f [] (split_sep cwd) = inr base).
  { revert Hb. generalize (@nil string) as cur.
    induction (split_sep cwd) as [|c comps IH]; intros cur; simpl; [done |].
    destruct (FS.lookup_node f cur) as [[?|]|]; try discriminate. apply IH. }
  rewrite Hbase. apply Hwalk.
Qed.

(** The key of a path whose last component is a name ends with it. *)
Lemma resolve_plain (p : string) (k : list string) :
  FS.resolve cwd p = Some k → FS.plain p = true →
  ∃ parent, k = parent ++ [FS.last_comp p].
Proof.
  unfold FS.resolve, FS.key_from, FS.plain, FS.last_comp.
  destruct (String.eqb p ""); [discriminate |]. intros [= <-] Hplain.
  destruct (rstrip_sep_decomp p) as (t & Hp & Ht).
  pose proof (split_sep_trailing (rstrip_sep p) t Ht) as Hs.
  rewrite <- Hp in Hs. rewrite Hs, fold_left_app.
  pose proof (PathFacts.split_sep_nonempty (rstrip_sep p)) as Hne.
  destruct (exists_last Hne) as (init & name & Hl).
  rewrite Hl in Hplain |- *. rewrite last_last in Hplain |- *.
  rewrite fold_push_empty, fold_left_app. cbn [fold_left].
  set (base := fold_left FS.push_comp init _).
  assert (Hpush : FS.push_comp base name = base ++ [name]).
  { unfold FS.push_comp. apply negb_true_iff in Hplain.
    apply orb_false_iff in Hplain as [[H1 H2]%orb_false_iff H3].
    by rewrite H1, H2, H3. }
  rewrite Hpush. by exists base.
Qed.

(** ** Making directories *)

(** After [os.mkdir] the directory exists. *)
Lemma mkdir_exists (f f' : FS.t) (p : string) :
  FS.mkdir cwd f p = inr f' → FS.exists_ cwd f' p = true.
Proof.
  unfold FS.mkdir.
  destruct (FS.plain p) eqn:Hplain.
  2:{ destruct (FS.locate cwd f _); discriminate. }
  assert (Hsep : all_sep p = false).
  { destruct (all_sep p) eqn:E; [| reflexivity].
    unfold FS.plain, FS.last_comp in Hplain.
    destruct (rstrip_sep_decomp p) as (t & Hp & Ht).
    assert (Hr : rstrip_sep p = "").
    { clear -E. induction p as [|c p IH]; [reflexivity |]. simpl in *.
      apply andb_true_iff in E as [Hc Hp]. by rewrite (IH Hp), Hc. }
    rewrite Hr in Hplain. discriminate. }
  rewrite Hsep.
  destruct (FS.locate cwd f (rstrip_sep p)) as [e|k] eqn:Hloc; [discriminate |].
  destruct (FS.lookup_node f k) as [n|] eqn:Hk; [discriminate |].
  intros [= <-].
  assert (Hdir : ∀ k0, FS.lookup_node f k0 = Some FS.Dir →
                       FS.lookup_node (<[k := FS.Dir]> f) k0 = Some FS.Dir).
  { intros [|c k0]; [done |]. simpl. intros Hk0.
    destruct (decide (k = c :: k0)) as [->|Hne];
      [by rewrite lookup_insert_eq | by rewrite lookup_insert_ne]. }
  assert (Hnew : FS.lookup_node (<[k := FS.Dir]> f) k = Some FS.Dir).
  { destruct k; [done |]. simpl. by rewrite lookup_insert_eq. }
  destruct (rstrip_sep_decomp p) as (t & Hp & Ht).
  assert (Hne : rstrip_sep p ≠ "").
  { intros Hr. unfold FS.plain, FS.last_comp in Hplain. rewrite Hr in Hplain.
    discriminate. }
  pose proof (locate_trailing _ _ t k Hne Ht (locate_mono _ _ _ _ Hdir Hloc) Hnew)
    as Hloc'.
  rewrite <- Hp in Hloc'. unfold FS.exists_. by rewrite Hloc', Hnew.
Qed.

Lemma length_take (n : nat) (s : string) :
  (String.length (take n s) ≤ String.length s)%nat.
Proof.
  revert s. induction n as [|n IH]; intros [|c s]; simpl; try lia.
  specialize (IH s). lia.
Qed.

Lemma length_rstrip_sep (s : string) :
  (String.length (rstrip_sep s) ≤ String.length s)%nat.
Proof.
  induction s as [|c s IH]; simpl; [lia |].
  destruct (rstrip_sep s); [destruct (Ascii.eqb c "/") |]; simpl in *; lia.
Qed.

Lemma length_dirname (p : string) :
  (String.length (PosixPath.dirname p) ≤ String.length p)%nat.
Proof.
  unfold PosixPath.dirname.
  pose proof (length_take (rfind_sep_succ p) p).
  pose proof (length_rstrip_sep (take (rfind_sep_succ p) p)).
  destruct (_ && _); lia.
Qed.

Lemma length_dirname_lt (p : string) :
  PosixPath.basename p ≠ "" →
  (String.length (PosixPath.dirname p) < String.length p)%nat.
Proof.
  unfold PosixPath.dirname, PosixPath.basename. intros Hb.
  pose proof (f_equal String.length (PyStrFacts.take_drop (rfind_sep_succ p) p))
    as Hlen.
  rewrite PyStrFacts.length_app in Hlen.
  assert (0 < String.length (drop (rfind_sep_succ p) p))%nat
    by (destruct (drop (rfind_sep_succ p) p); [done | simpl; lia]).
  pose proof (length_rstrip_sep (take (rfind_sep_succ p) p)).
  destruct (_ && _); lia.
Qed.

(** The head [os.makedirs] recurses on is shorter than the path. *)
Lemma head_tail_shorter (name head tail : string) :
  FS.head_tail name = (head, tail) → tail ≠ "" →
  (String.length head < String.length name)%nat.
Proof.
  unfold FS.head_tail, PosixPath.split.
  destruct (String.eqb (PosixPath.basename name) "") eqn:E.
  - intros [= <- <-] Ht. pose proof (length_dirname_lt _ Ht).
    pose proof (length_dirname name). lia.
  - intros [= <- <-] Ht. by apply length_dirname_lt.
Qed.

(** Any fuel above the length of the path gives [os.makedirs] the same
    outcome: the bound on the depth is never reached. *)
Lemma makedirs_rec_fuel (n : nat) :
  ∀ (m : nat) (f : FS.t) (name : string),
  (String.length name < n)%nat → (String.length name < m)%nat →
  FS.makedirs_rec cwd n f name = FS.makedirs_rec cwd m f name.
Proof.
  induction n as [|n IH]; intros m f name Hn Hm; [lia |].
  destruct m as [|m]; [lia |]. simpl.
  destruct (FS.head_tail name) as [head tail] eqn:Hht.
  destruct (negb (String.eqb head "") && negb (String.eqb tail "")
            && negb (FS.exists_ cwd f head)) eqn:Hcond; [| reflexivity].
  assert (Htail : tail ≠ "").
  { intros ->. rewrite andb_false_r in Hcond. discriminate. }
  pose proof (head_tail_shorter _ _ _ Hht Htail).
  rewrite (IH m f head); [reflexivity | lia | lia].
Qed.

(** [os.makedirs] returns normally only when its last step made the
    directory, or when the tail of the path is [.]. *)
Lemma makedirs_exists (f f' : FS.t) (name : string) :
  FS.makedirs cwd f name = (f', None) →
  FS.exists_ cwd f' name = true ∨ (FS.head_tail name).2 = ".".
Proof.
  unfold FS.makedirs. simpl FS.makedirs_rec.
  destruct (FS.head_tail name) as [head tail]. simpl.
  assert (Hmake : ∀ f1, match FS.mkdir cwd f1 name with
                        | inl e => (f1, Some e)
                        | inr f2 => (f2, None)
                        end = (f', None) →
                        FS.exists_ cwd f' name = true).
  { intros f1. destruct (FS.mkdir cwd f1 name) as [e|f2] eqn:Hmk; [discriminate |].
    intros [= <-]. by apply mkdir_exists in Hmk. }
  destruct (negb (String.eqb head "") && negb (String.eqb tail "")
            && negb (FS.exists_ cwd f head)).
  - destruct (FS.makedirs_rec cwd (String.length name) f head) as [f1 [e|]].
    + destruct e; try discriminate.
      destruct (String.eqb tail ".") eqn:E;
        [right; by apply String.eqb_eq | left; by eapply Hmake].
    + destruct (String.eqb tail ".") eqn:E;
        [right; by apply String.eqb_eq | left; by eapply Hmake].
  - left. by eapply Hmake.
Qed.

End WithCwd.

End FSFacts.

(** ** The whole run *)

Section Run.

Variables monaifbs_file cwd : string.
Variable yaml_load : string → option yaml.
Variable run_inference :
  string → gmap string yaml → FS.t → FS.t * result (gmap string yaml).

Local Abbreviation load_config' := (load_config monaifbs_file cwd yaml_load).
Local Abbreviation main' := (main monaifbs_file cwd yaml_load run_inference).

(** The three stages of [main], one after the other. *)
Lemma main_stages (args : Args) (st : state) :
  main' args st
  = match (load_config' (config_file args) st).2 with
    | inl e => (st, inl e)
    | inr config =>
        if (length (input_names args) =? length (segment_output_names args))%nat
        then loop cwd run_inference
               (zip (input_names args) (segment_output_names args)) config st
        else (st, inl mismatch)
    end.
Proof.
  unfold main, check_lengths, bind.
  pose proof (load_config_state monaifbs_file cwd yaml_load (config_file args) st) as Hst.
  destruct (load_config' (config_file args) st) as [st1 [e|config]];
    simpl in *; subst st1; [reflexivity |].
  destruct (_ =? _)%nat; reflexivity.
Qed.

(** The calls of a run, whatever its outcome, are made for the pairs in
    order, each with a configuration that satisfies an invariant [I] of
    the loop. *)
Lemma main_calls (I : gmap string yaml → Prop) (args : Args) (st : state) :
  (∀ c v, I c → I (<["output" := v]> c)) →
  (∀ img c f f' c', I c → run_inference img c f = (f', inr c') → I c') →
  (∀ config, (load_config' (config_file args) st).2 = inr config → I config) →
  ∃ calls,
    inference_calls (st_trace (main' args st).1)
    = inference_calls (st_trace st) ++ calls
    ∧ Forall2 (call_for cwd I) calls
        (take (length calls) (zip (input_names args) (segment_output_names args)))
    ∧ ∀ config', (main' args st).2 = inr config' →
        length calls = length (zip (input_names args) (segment_output_names args))
        ∧ I config'.
Proof.
  intros HIo HIr HI0. rewrite main_stages.
  destruct ((load_config' (config_file args) st).2) as [e|config].
  { exists []. rewrite app_nil_r. split; [reflexivity |].
    split; [constructor | discriminate]. }
  destruct (_ =? _)%nat.
  - apply loop_calls; auto.
  - exists []. rewrite app_nil_r. split; [reflexivity |].
    split; [constructor | discriminate].
Qed.

End Run.

Lemma Forall2_call_for_fst (cwd : string) (I : gmap string yaml → Prop)
    (calls : list (string * gmap string yaml)) (pairs : list (string * string)) :
  Forall2 (call_for cwd I) calls pairs → calls.*1 = pairs.*1.
Proof.
  induction 1 as [|call pair calls pairs [Hfst _] _ IH]; [reflexivity |].
  rewrite !fmap_cons. by f_equal.
Qed.

Lemma Forall2_call_for_inv (cwd : string) (I : gmap string yaml → Prop)
    (calls : list (string * gmap string yaml)) (pairs : list (string * string)) :
  Forall2 (call_for cwd I) calls pairs → Forall (λ call, I call.2) calls.
Proof.
  induction 1 as [|call pair calls pairs (_ & _ & HI) _ IH]; constructor; auto.
Qed.

(** ** The body of the loop after the output folder *)

(** An iteration is the preparation of the output folder followed, when
    that succeeds, by the inference call and the finalizer on the
    configuration with ['output'] reassigned. *)
Lemma iteration_after_prepare (cwd : string)
    (run_inference :
       string → gmap string yaml → FS.t → FS.t * result (gmap string yaml))
    (img seg : string) (config : gmap string yaml) (st : state) :
  iteration cwd run_inference img seg config st
  = match prepare_out_folder cwd seg st with
    | (st1, inr d) =>
        (let* config' := call_inference run_inference img
                           (<["output" := output_section d]> config) in
         let* _ := finalize cwd img seg d config' in
         ret config') st1
    | (st1, inl e) => (st1, inl e)
    end.
Proof. reflexivity. Qed.

(** ** The claims about the run *)

Section Claims.

Variables monaifbs_file cwd : string.
Variable yaml_load : string → option yaml.
Variable run_inference :
  string → gmap string yaml → FS.t → FS.t * result (gmap string yaml).

Local Abbreviation load_config' := (load_config monaifbs_file cwd yaml_load).
Local Abbreviation main' := (main monaifbs_file cwd yaml_load run_inference).

(** C2, as amended.  When the two lists differ in length the run fails
    before any call to the inference routine: the log of inference calls
    is as the run found it.  The failure is the assertion error whenever
    the configuration was loaded, and the error of the configuration
    stage otherwise. *)
Theorem C2_mismatch_fails_before_inference (args : Args) (st : state) :
length (input_names args) ≠ length (segment_output_names args) →
∃ e, main' args st = (st, inl e)
  ∧ inference_calls (st_trace (main' args st).1) = inference_calls (st_trace st)
  ∧ (∀ config, (load_config' (config_file args) st).2 = inr config → e = mismatch)
  ∧ (∀ e', (load_config' (config_file args) st).2 = inl e' → e = e').
Proof.
intros Hne. rewrite main_stages.
apply Nat.eqb_neq in Hne. rewrite Hne.
destruct ((load_config' (config_file args) st).2) as [e|config].
- exists e. split; [reflexivity |]. split; [reflexivity |].
  split; [discriminate | congruence].
- exists mismatch. split; [reflexivity |]. split; [reflexivity |].
  split; [reflexivity | discriminate].
Qed.

(** C3.  When the two lists have the same length [n] and the run succeeds,
  the log of a run started with an empty log shows exactly [n] inference
  calls, one per (input, output) pair and in the order of the lists: the
  images called on are the input names, and each call carries the output
  section made for the output name it is paired with. *)
Theorem C3_one_call_per_pair (args : Args) (f : FS.t) (st' : state)
  (config' : gmap string yaml) :
length (input_names args) = length (segment_output_names args) →
main' args (mkState f []) = (st', inr config') →
length (inference_calls (st_trace st')) = length (input_names args)
∧ (inference_calls (st_trace st')).*1 = input_names args
∧ Forall2 (λ call pair,
             call.1 = pair.1
             ∧ call.2 !! "output" = Some (output_section (out_folder_of cwd pair.2)))
    (inference_calls (st_trace st'))
    (zip (input_names args) (segment_output_names args)).
Proof.
intros Hlen Hrun.
destruct (main_calls monaifbs_file cwd yaml_load run_inference (λ _, True)
            args (mkState f [])) as (calls & Htr & Hall & Hok); auto.
rewrite Hrun in Htr, Hok. simpl in Htr, Hok. subst calls.
destruct (Hok _ eq_refl) as [Hn _]. rewrite length_zip, Hlen, Nat.min_id in Hn.
rewrite firstn_all2 in Hall by (rewrite length_zip, Hlen, Nat.min_id; lia).
split; [congruence |]. split.
- rewrite (Forall2_call_for_fst _ _ _ _ Hall). apply fst_zip. lia.
- eapply Forall2_impl; [exact Hall |]. by intros call pair (? & ? & _).
Qed.

(** C4.  The configuration path that is used is the one given on the
  command line, and the package default only when none is given.
  Loading the configuration raises the file-not-found error exactly when
  that path does not name an existing file.  With a given path that names
  no file the run ends with that error in the state it started from, so
  nothing has been called, whether or not the default file exists. *)
Theorem C4_config_not_found_iff (arg : option string) (st : state) :
effective_config_file monaifbs_file arg
= match arg with
  | Some p => p
  | None => PosixPath.join (PosixPath.dirname monaifbs_file)
              ["config"; "monai_dynUnet_inference_config.yml"]
  end
∧ ((∃ msg, (load_config' arg st).2 = inl (FileNotFoundError msg))
   ↔ FS.isfile cwd (st_fs st) (effective_config_file monaifbs_file arg) = false)
∧ (∀ args p,
     config_file args = Some p →
     FS.isfile cwd (st_fs st) p = false →
     main' args st
     = (st, inl (FileNotFoundError ("Expected config file: " +:+ p +:+ " not found")))).
Proof.
split; [by destruct arg |]. split.
- split.
  + intros [msg Hmsg].
    destruct (FS.isfile cwd (st_fs st) (effective_config_file monaifbs_file arg)) eqn:E;
      [| reflexivity].
    by apply (load_config_found monaifbs_file cwd yaml_load arg st msg) in E.
  + intros E. rewrite (load_config_missing _ _ _ _ _ E). eauto.
- intros args p Harg E. rewrite main_stages, Harg.
  by rewrite (load_config_missing monaifbs_file cwd yaml_load (Some p) st E).
Qed.

(** C5.  When [inference.model_to_load] of the loaded configuration is the
  string ["default"], it is replaced by the bundled checkpoint, which is
  [models/checkpoint_dynUnet_DiceXent.pt] under the package directory, and
  nothing else changes; for any other value the configuration is left
  exactly as loaded. *)
Theorem C5_default_model_substituted (m inference : gmap string yaml) :
m !! "inference" = Some (YMap inference) →
default_model monaifbs_file
= PosixPath.join (PosixPath.dirname monaifbs_file)
    ["models"; "checkpoint_dynUnet_DiceXent.pt"]
∧ (inference !! "model_to_load" = Some (YStr "default") →
   resolve_model monaifbs_file (YMap m)
   = inr (<["inference" :=
             YMap (<["model_to_load" := YStr (default_model monaifbs_file)]> inference)]> m))
∧ (∀ v, inference !! "model_to_load" = Some v →
        v ≠ YStr "default" →
        resolve_model monaifbs_file (YMap m) = inr m).
Proof.
intros Hinf. split; [reflexivity |].
unfold resolve_model, getitem, setitem. rewrite Hinf. split.
- by intros ->.
- intros v -> Hv. by rewrite (eq_str_false _ _ Hv).
Qed.

(** C6.  The output folder of an output name is its directory part, or the
    working directory when that part is empty, and the configuration
    handed to the inference routine has an ['output'] section that holds
    exactly [out_postfix = "seg"] and [out_dir] = that folder.  In an
    iteration whose folder exists nothing is created: the inference call
    and the finalizer run on the state as it is.  In an iteration whose
    folder does not exist [os.makedirs] is called on it first, once: when
    it raises, the iteration ends with its error and no inference call is
    made; when it returns, the inference call and the finalizer run on
    the file system it left, in which the folder exists (unless the path
    ends in a [.] component).  From the prepared folder on, exactly one
    inference call is made, on the image and that configuration.  Over a
    whole run every inference call carries the output section of the
    output name it is paired with. *)
Theorem C6_output_folder_prepared (img seg : string) (config : gmap string yaml)
    (args : Args) (st : state) :
  let d := out_folder_of cwd seg in
  let c := <["output" := output_section d]> config in
  let infer : M (gmap string yaml) :=
    let* config' := call_inference run_inference img c in
    let* _ := finalize cwd img seg d config' in
    ret config' in
  let made :=
    mkState (FS.makedirs cwd (st_fs st) d).1 (st_trace st ++ [EvMakedirs d]) in
  d = (if String.eqb (PosixPath.dirname seg) "" then cwd else PosixPath.dirname seg)
  ∧ c !! "output"
    = Some (YMap (<["out_postfix" := YStr "seg"]> (<["out_dir" := YStr d]> ∅)))
  ∧ (FS.exists_ cwd (st_fs st) d = true →
     prepare_out_folder cwd seg st = (st, inr d)
     ∧ iteration cwd run_inference img seg config st = infer st)
  ∧ (FS.exists_ cwd (st_fs st) d = false →
     match (FS.makedirs cwd (st_fs st) d).2 with
     | Some e =>
         prepare_out_folder cwd seg st = (made, inl e)
         ∧ iteration cwd run_inference img seg config st = (made, inl e)
     | None =>
         prepare_out_folder cwd seg st = (made, inr d)
         ∧ iteration cwd run_inference img seg config st = infer made
         ∧ (FS.exists_ cwd (st_fs made) d = true ∨ (FS.head_tail d).2 = ".")
     end)
  ∧ (∀ st1, inference_calls (st_trace (infer st1).1)
            = inference_calls (st_trace st1) ++ [(img, c)])
  ∧ ∃ calls,
      inference_calls (st_trace (main' args st).1)
      = inference_calls (st_trace st) ++ calls
      ∧ Forall2 (λ call pair,
                   call.1 = pair.1
                   ∧ call.2 !! "output"
                     = Some (YMap (<["out_postfix" := YStr "seg"]>
                                     (<["out_dir" := YStr (out_folder_of cwd pair.2)]> ∅))))
          calls
          (take (length calls) (zip (input_names args) (segment_output_names args))).
Proof.
  intros d c infer made.
  split; [reflexivity |]. split; [apply lookup_insert_eq |]. split; [| split].
  - intros E.
    assert (Hprep : prepare_out_folder cwd seg st = (st, inr d)).
    { unfold prepare_out_folder. unfold_monad. fold d. by rewrite E. }
    split; [exact Hprep |]. by rewrite iteration_after_prepare, Hprep.
  - intros E. subst made.
    destruct (FS.makedirs cwd (st_fs st) d) as [f' [e|]] eqn:Hmk; simpl.
    + assert (Hprep : prepare_out_folder cwd seg st
                      = (mkState f' (st_trace st ++ [EvMakedirs d]), inl e)).
      { unfold prepare_out_folder, os_makedirs. unfold_monad. fold d.
        rewrite E. simpl. by rewrite Hmk. }
      split; [exact Hprep |]. by rewrite iteration_after_prepare, Hprep.
    + assert (Hprep : prepare_out_folder cwd seg st
                      = (mkState f' (st_trace st ++ [EvMakedirs d]), inr d)).
      { unfold prepare_out_folder, os_makedirs. unfold_monad. fold d.
        rewrite E. simpl. by rewrite Hmk. }
      split; [exact Hprep |]. split; [by rewrite iteration_after_prepare, Hprep |].
      exact (FSFacts.makedirs_exists cwd _ _ _ Hmk).
  - split.
    + intros st1. subst infer. unfold bind, call_inference.
      destruct (run_inference img c (st_fs st1)) as [f' [e|c']]; simpl.
      { by rewrite inference_calls_app. }
      pose proof (quiet_finalize cwd img seg d c'
                    (mkState f' (st_trace st1 ++ [EvInference img c]))) as Hq.
      destruct (finalize cwd img seg d c' _) as [st2 [e|[]]]; simpl in *;
        by rewrite Hq, inference_calls_app.
    + destruct (main_calls monaifbs_file cwd yaml_load run_inference (λ _, True)
                  args st) as (calls & Htr & Hall & _); auto.
      exists calls. split; [exact Htr |].
      eapply Forall2_impl; [exact Hall |]. by intros call pair (? & ? & _).
Qed.

(** C8.  When the file expected from the inference does not exist, the
  finalizer raises the file-not-found error and hands back the state it
  was given: the file system is unchanged and neither [os.rename] nor
  [os.rmdir] has been called. *)
Theorem C8_missing_output_raises (img seg out_folder postfix : string)
  (config : gmap string yaml) (st : state) :
out_postfix config = inr postfix →
FS.exists_ cwd (st_fs st) (out_filename out_folder img postfix) = false →
finalize cwd img seg out_folder config st
= (st, inl (FileNotFoundError
              ("Network output file " +:+ out_filename out_folder img postfix
               +:+ " not found, check if the segmentation pipeline has failed"))).
Proof.
intros Hpost Hmiss. unfold finalize. unfold_monad.
rewrite Hpost. simpl. by rewrite Hmiss.
Qed.

(** C9.  Provided the inference routine itself leaves every entry of the
  dictionary other than ['output'] as it is, the configuration handed to
  each inference call of a run, and the configuration at the end of a
  successful run, agree with the configuration loaded at startup on every
  key other than ['output']; in particular the ['inference'] entry, with
  the model path settled before the loop, is the same throughout. *)
Theorem C9_only_output_reassigned (args : Args) (st : state)
  (config0 : gmap string yaml) :
(∀ img c f f' c', run_inference img c f = (f', inr c') →
                  ∀ k, k ≠ "output" → c' !! k = c !! k) →
(load_config' (config_file args) st).2 = inr config0 →
∃ calls,
  inference_calls (st_trace (main' args st).1)
  = inference_calls (st_trace st) ++ calls
  ∧ Forall (λ call : string * gmap string yaml,
              call.2 !! "inference" = config0 !! "inference"
              ∧ ∀ k, k ≠ "output" → call.2 !! k = config0 !! k) calls
  ∧ ∀ config', (main' args st).2 = inr config' →
               ∀ k, k ≠ "output" → config' !! k = config0 !! k.
Proof.
intros Hframe Hload.
destruct (main_calls monaifbs_file cwd yaml_load run_inference
            (λ c, ∀ k, k ≠ "output" → c !! k = config0 !! k) args st)
  as (calls & Htr & Hall & Hok).
- intros c v Hc k Hk. rewrite lookup_insert_ne by done. by apply Hc.
- intros img c f f' c' Hc Hrun k Hk.
  rewrite (Hframe _ _ _ _ _ Hrun k Hk). by apply Hc.
- intros config Hcfg. rewrite Hload in Hcfg. by injection Hcfg as <-.
- exists calls. split; [exact Htr |]. split.
  + apply Forall2_call_for_inv in Hall.
    eapply Forall_impl; [exact Hall |]. intros call Hc. split; [| exact Hc].
    by apply Hc.
  + intros config' Hres. by destruct (Hok _ Hres).
Qed.

(** C10.  The configuration stage comes before the check of the lengths:
  whenever loading the configuration fails, the run fails with that very
  error, whatever the lengths of the lists.  In particular, with a given
  configuration path that names no file and lists of different lengths,
  the run fails with the file-not-found error and not with the assertion
  error. *)
Theorem C10_config_checked_before_lengths (args : Args) (st : state) :
(∀ e, (load_config' (config_file args) st).2 = inl e →
      main' args st = (st, inl e))
∧ (∀ p, config_file args = Some p →
        FS.isfile cwd (st_fs st) p = false →
        length (input_names args) ≠ length (segment_output_names args) →
        main' args st
        = (st, inl (FileNotFoundError ("Expected config file: " +:+ p +:+ " not found")))
        ∧ (main' args st).2 ≠ inl mismatch).
Proof.
split.
- intros e He. by rewrite main_stages, He.
- intros p Harg E _. rewrite main_stages, Harg.
  rewrite (load_config_missing monaifbs_file cwd yaml_load (Some p) st E).
  split; [reflexivity | discriminate].
Qed.

End Claims.

(** ** The finalizer *)

(** The finalizer once the expected file exists: [os.rename], and then
    [os.rmdir] when the rename succeeded and the requested name exists. *)
Lemma finalize_found (cwd img seg out_folder postfix : string)
    (config : gmap string yaml) (st : state) :
  out_postfix config = inr postfix →
  FS.exists_ cwd (st_fs st) (out_filename out_folder img postfix) = true →
  let expected := out_filename out_folder img postfix in
  let subdir := PosixPath.join out_folder [(strip_extension img).1] in
  let renamed := st_trace st ++ [EvRename expected seg] in
  finalize cwd img seg out_folder config st
  = match FS.rename cwd (st_fs st) expected seg with
    | inl e => (mkState (st_fs st) renamed, inl e)
    | inr f' =>
        if FS.exists_ cwd f' seg then
          match FS.rmdir cwd f' subdir with
          | inl e => (mkState f' (renamed ++ [EvRmdir subdir]), inl e)
          | inr f'' => (mkState f'' (renamed ++ [EvRmdir subdir]), inr tt)
          end
        else (mkState f' renamed, inr tt)
    end.
Proof.
  intros Hpost Hfound expected subdir renamed.
  unfold finalize, os_rename, os_rmdir, fs_call, log. unfold_monad.
  rewrite Hpost. cbv beta iota. rewrite Hfound.
  cbn [negb st_fs st_trace]. fold expected. fold renamed.
  destruct (FS.rename cwd (st_fs st) expected seg) as [e|f']; [reflexivity |].
  cbn [st_fs st_trace]. destruct (FS.exists_ cwd f' seg); [| reflexivity].
  fold subdir. cbn [st_fs st_trace]. by destruct (FS.rmdir cwd f' subdir).
Qed.

(** C7.  On the disk left by an inference on [case1.nii.gz] into [out],
    which holds [out/case1/case1_seg.nii.gz], the finalizer asked for
    [out/case1_mask.nii.gz] renames the file to that name and then removes
    [out/case1]; a whole run on that pair, with the test double as the
    inference routine, leaves the same disk.  In general, once the
    expected file exists, the finalizer calls [os.rename] on it and the
    requested name; if the rename fails it stops there, with no
    [os.rmdir]; if it succeeds and the requested name then exists, it calls
    [os.rmdir] on the intermediate subdirectory, and otherwise it leaves
    the subdirectory alone. *)
Theorem C7_rename_then_remove :
  finalize Double.cwd "case1.nii.gz" "out/case1_mask.nii.gz" "out"
    Double.config_out (mkState Double.produced [])
  = (mkState Double.finalized
       [EvRename "out/case1/case1_seg.nii.gz" "out/case1_mask.nii.gz";
        EvRmdir "out/case1"],
     inr tt)
  ∧ FS.isfile Double.cwd Double.finalized "out/case1_mask.nii.gz" = true
  ∧ FS.exists_ Double.cwd Double.finalized "out/case1" = false
  ∧ (Double.run Double.one_args).1
    = mkState Double.finalized
        [EvMakedirs "out";
         EvInference "case1.nii.gz" Double.config_run;
         EvRename "out/case1/case1_seg.nii.gz" "out/case1_mask.nii.gz";
         EvRmdir "out/case1"]
  ∧ ∀ (cwd img seg out_folder postfix : string) (config : gmap string yaml)
      (st : state),
      out_postfix config = inr postfix →
      FS.exists_ cwd (st_fs st) (out_filename out_folder img postfix) = true →
      let expected := out_filename out_folder img postfix in
      let subdir := PosixPath.join out_folder [(strip_extension img).1] in
      let renamed := st_trace st ++ [EvRename expected seg] in
      finalize cwd img seg out_folder config st
      = match FS.rename cwd (st_fs st) expected seg with
        | inl e => (mkState (st_fs st) renamed, inl e)
        | inr f' =>
            if FS.exists_ cwd f' seg then
              match FS.rmdir cwd f' subdir with
              | inl e => (mkState f' (renamed ++ [EvRmdir subdir]), inl e)
              | inr f'' => (mkState f'' (renamed ++ [EvRmdir subdir]), inr tt)
              end
            else (mkState f' renamed, inr tt)
        end.
Proof.
  split; [vm_compute; reflexivity |]. split; [vm_compute; reflexivity |].
  split; [vm_compute; reflexivity |]. split; [vm_compute; reflexivity |].
  intros cwd img seg out_folder postfix config st Hpost Hfound.
  exact (finalize_found cwd img seg out_folder postfix config st Hpost Hfound).
Qed.

(** ** The expected name when [gz] occurs in the base name *)

(** C1, at an input on which the script departs from the naming
    convention.  For the uncompressed input [gz_case2.nii] the script
    expects [out/gz_ca/gz_ca_seg.nii.gz], whereas the convention gives
    [out/gz_case2/gz_case2_seg.nii]; a run on that input, with an
    inference routine that follows the convention, ends in the
    file-not-found error of the finalizer. *)
Theorem C1_gz_in_name_diverges :
  out_filename "out" "gz_case2.nii" "seg" = "out/gz_ca/gz_ca_seg.nii.gz"
  ∧ Convention.expected_path "out" "gz_case2.nii" "seg"
    = "out/gz_case2/gz_case2_seg.nii"
  ∧ out_filename "out" "gz_case2.nii" "seg"
    ≠ Convention.expected_path "out" "gz_case2.nii" "seg"
  ∧ (Double.run Double.gz_args).2
    = inl (FileNotFoundError
             "Network output file out/gz_ca/gz_ca_seg.nii.gz not found, check if the segmentation pipeline has failed").
Proof.
  split; [vm_compute; reflexivity |]. split; [vm_compute; reflexivity |].
  split; [vm_compute; discriminate |]. vm_compute; reflexivity.
Qed.

(** ** The claims at concrete inputs *)

(** The test double hands the configuration back as it received it. *)
Lemma double_keeps_config (cwd img : string) (c c' : gmap string yaml) (f f' : FS.t) :
  Double.run_inference cwd img c f = (f', inr c') → c' = c.
Proof.
  unfold Double.run_inference.
  destruct (getitem (YMap c) "output") as [e|output]; [congruence |].
  destruct (Double.str_field output "out_dir") as [e|out_dir];
    destruct (Double.str_field output "out_postfix") as [e'|postfix];
    try congruence.
  destruct (Convention.split_ext _) as [stem ext].
  destruct (FS.resolve cwd _); congruence.
Qed.

(** C2 at two outputs for one input, with the default configuration in
    place: the run stops at the assertion and the log stays empty. *)
Lemma C2_witness :
  Double.run Double.short_args = (Double.start, inl mismatch)
  ∧ inference_calls (st_trace (Double.run Double.short_args).1) = [].
Proof.
  destruct (C2_mismatch_fails_before_inference
              Double.monaifbs_file Double.cwd Double.yaml_load
              (Double.run_inference Double.cwd) Double.short_args Double.start)
    as (e & Hrun & Hcalls & Hok & _).
  - simpl. lia.
  - split; [| exact Hcalls].
    unfold Double.run. rewrite Hrun. f_equal. f_equal.
    eapply Hok. vm_compute. reflexivity.
Defined.

(** C2 as first stated fails when the configuration file is missing: the
    lists differ in length, and the run ends with the file-not-found error
    of the configuration stage, not with an assertion error. *)
Lemma C2_config_error_comes_first :
  length (input_names Double.lost_args)
  ≠ length (segment_output_names Double.lost_args)
  ∧ Double.run Double.lost_args
    = (Double.start,
       inl (FileNotFoundError "Expected config file: nope.yml not found"))
  ∧ ¬ ∃ msg st', Double.run Double.lost_args = (st', inl (AssertionError msg)).
Proof.
  split; [simpl; lia |].
  assert (H : Double.run Double.lost_args
              = (Double.start,
                 inl (FileNotFoundError "Expected config file: nope.yml not found")))
    by (vm_compute; reflexivity).
  split; [exact H |]. intros (msg & st' & H'). rewrite H in H'. discriminate.
Qed.

(** C3 at two pairs: two calls, on the two inputs in order. *)
Lemma C3_witness :
  length (inference_calls (st_trace (Double.run Double.two_args).1)) = 2
  ∧ (inference_calls (st_trace (Double.run Double.two_args).1)).*1
    = ["case1.nii.gz"; "in/case2.nii"].
Proof.
  destruct (C3_one_call_per_pair
              Double.monaifbs_file Double.cwd Double.yaml_load
              (Double.run_inference Double.cwd) Double.two_args Double.disk
              (Double.run Double.two_args).1 (Double.final_config Double.two_args))
    as (Hlen & Hfst & _).
  - reflexivity.
  - vm_compute. reflexivity.
  - split; [exact Hlen | exact Hfst].
Defined.

(** C5 at the bundled configuration, whose model is ["default"]. *)
Lemma C5_witness :
  resolve_model Double.monaifbs_file
    (YMap {["inference" := YMap {["model_to_load" := YStr "default"]}]})
  = inr {["inference" :=
            YMap {["model_to_load" :=
                     YStr "/pkg/monaifbs/models/checkpoint_dynUnet_DiceXent.pt"]}]}.
Proof.
  destruct (C5_default_model_substituted Double.monaifbs_file
              {["inference" := YMap {["model_to_load" := YStr "default"]}]}
              {["model_to_load" := YStr "default"]})
    as (_ & Hdefault & _).
  - vm_compute. reflexivity.
  - rewrite Hdefault by (vm_compute; reflexivity). vm_compute. reflexivity.
Defined.

(** C8 on a disk where the inference has written nothing. *)
Lemma C8_witness :
  finalize Double.cwd "case1.nii.gz" "out/case1_mask.nii.gz" "out"
    Double.config_out Double.start
  = (Double.start,
     inl (FileNotFoundError
            "Network output file out/case1/case1_seg.nii.gz not found, check if the segmentation pipeline has failed")).
Proof.
  rewrite (C8_missing_output_raises Double.cwd "case1.nii.gz"
             "out/case1_mask.nii.gz" "out" "seg" Double.config_out Double.start).
  - vm_compute. reflexivity.
  - vm_compute. reflexivity.
  - vm_compute. reflexivity.
Defined.

(** C9 with the test double, which keeps the configuration: the two calls
    of a run on two pairs carry the ['inference'] entry settled at startup. *)
Lemma C9_witness :
  Forall (λ call : string * gmap string yaml,
            call.2 !! "inference"
            = Some (YMap {["model_to_load" :=
                             YStr "/pkg/monaifbs/models/checkpoint_dynUnet_DiceXent.pt"]}))
    (inference_calls (st_trace (Double.run Double.two_args).1)).
Proof.
  destruct (C9_only_output_reassigned
              Double.monaifbs_file Double.cwd Double.yaml_load
              (Double.run_inference Double.cwd) Double.two_args Double.start
              {["inference" :=
                  YMap {["model_to_load" :=
                           YStr "/pkg/monaifbs/models/checkpoint_dynUnet_DiceXent.pt"]}]})
    as (calls & Htr & Hall & _).
  - intros img c f f' c' Hrun k _.
    by rewrite (double_keeps_config _ _ _ _ _ _ Hrun).
  - vm_compute. reflexivity.
  - unfold Double.run. rewrite Htr. simpl.
    eapply Forall_impl; [exact Hall |]. intros call [Hinf _]. exact Hinf.
Defined.

(** C4 at a command line that names a missing configuration file: the run
    ends at once with the file-not-found error, although the default
    configuration is in place. *)
Lemma C4_witness :
  FS.isfile Double.cwd Double.disk
    (effective_config_file Double.monaifbs_file None) = true
  ∧ Double.run Double.lost_args
    = (Double.start,
       inl (FileNotFoundError "Expected config file: nope.yml not found")).
Proof.
  split; [vm_compute; reflexivity |].
  destruct (C4_config_not_found_iff
              Double.monaifbs_file Double.cwd Double.yaml_load
              (Double.run_inference Double.cwd) (Some "nope.yml") Double.start)
    as (_ & _ & Hrun).
  apply (Hrun Double.lost_args "nope.yml"); vm_compute; reflexivity.
Defined.

(** C6 at an output name in a folder that does not exist yet: the folder
    is made before the inference call, and exists from then on. *)
Lemma C6_witness :
  FS.exists_ Double.cwd Double.disk "out" = false
  ∧ FS.exists_ Double.cwd
      (st_fs (prepare_out_folder Double.cwd "out/case1_mask.nii.gz" Double.start).1)
      "out" = true
  ∧ inference_calls
      (st_trace (iteration Double.cwd (Double.run_inference Double.cwd)
                   "case1.nii.gz" "out/case1_mask.nii.gz"
                   Double.config_run Double.start).1)
    = [("case1.nii.gz", Double.config_run)].
Proof.
  assert (Hmissing : FS.exists_ Double.cwd Double.disk "out" = false)
    by (vm_compute; reflexivity).
  assert (Hmade : (FS.makedirs Double.cwd Double.disk "out").2 = None)
    by (vm_compute; reflexivity).
  destruct (C6_output_folder_prepared
              Double.monaifbs_file Double.cwd Double.yaml_load
              (Double.run_inference Double.cwd) "case1.nii.gz"
              "out/case1_mask.nii.gz" Double.config_run
              Double.one_args Double.start)
    as (_ & _ & _ & Hno & Hcall & _).
  specialize (Hno Hmissing). change (st_fs Double.start) with Double.disk in Hno.
  change (out_folder_of Double.cwd "out/case1_mask.nii.gz") with "out" in Hno.
  rewrite Hmade in Hno. destruct Hno as (Hprep & Hit & Hex).
  split; [exact Hmissing |]. split.
  - rewrite Hprep. destruct Hex as [Hex | Hdot]; [exact Hex |].
    vm_compute in Hdot. discriminate Hdot.
  - rewrite Hit, Hcall. reflexivity.
Defined.

(** C7 at the disk of the example, through the general part. *)
Lemma C7_witness :
  st_trace (finalize Double.cwd "case1.nii.gz" "out/case1_mask.nii.gz" "out"
              Double.config_out (mkState Double.produced [])).1
  = [EvRename "out/case1/case1_seg.nii.gz" "out/case1_mask.nii.gz";
     EvRmdir "out/case1"].
Proof.
  destruct C7_rename_then_remove as (_ & _ & _ & _ & Hgen).
  rewrite (Hgen Double.cwd "case1.nii.gz" "out/case1_mask.nii.gz" "out" "seg"
             Double.config_out (mkState Double.produced []));
    vm_compute; reflexivity.
Defined.

(** C10 at a missing configuration file and lists of different lengths. *)
Lemma C10_witness :
  Double.run Double.lost_args
  = (Double.start,
     inl (FileNotFoundError "Expected config file: nope.yml not found"))
  ∧ (Double.run Double.lost_args).2 ≠ inl mismatch.
Proof.
  destruct (C10_config_checked_before_lengths
              Double.monaifbs_file Double.cwd Double.yaml_load
              (Double.run_inference Double.cwd) Double.lost_args Double.start)
    as (_ & Hmissing).
  apply (Hmissing "nope.yml").
  - reflexivity.
  - vm_compute; reflexivity.
  - simpl. lia.
Defined.

(** * Further properties of the script *)

(** ** Startup on a malformed configuration *)

Lemma join2_length (path b : string) :
  (String.length b ≤ String.length (PosixPath.join2 path b))%nat.
Proof.
  unfold PosixPath.join2.
  destruct (PyStr.startswith "/" b); [lia |].
  destruct (_ || _); rewrite ?PyStrFacts.length_app; lia.
Qed.

(** The bundled checkpoint path is never the sentinel itself. *)
Lemma default_model_not_sentinel (monaifbs_file : string) :
  default_model monaifbs_file ≠ "default".
Proof.
  unfold default_model, PosixPath.join. simpl fold_left. intros H.
  pose proof (join2_length
                (PosixPath.join2 (package_dir monaifbs_file) "models")
                "checkpoint_dynUnet_DiceXent.pt") as Hlen.
  rewrite H in Hlen. simpl in Hlen. lia.
Qed.

Lemma resolve_model_model (monaifbs_file : string) (config : yaml)
    (m : gmap string yaml) :
  resolve_model monaifbs_file config = inr m →
  ∃ inference v,
    m !! "inference" = Some (YMap inference)
    ∧ inference !! "model_to_load" = Some v
    ∧ v ≠ YStr "default".
Proof.
  unfold resolve_model, getitem, setitem.
  destruct config as [| | | | |m0]; try discriminate.
  destruct (m0 !! "inference") as [[| | | | |inf]|] eqn:Hinf; try discriminate.
  destruct (inf !! "model_to_load") as [v|] eqn:Hv; try discriminate.
  destruct (eq_str v "default") eqn:E; intros [= <-].
  - eexists _, _. rewrite lookup_insert_eq. split; [reflexivity |].
    rewrite lookup_insert_eq. split; [reflexivity |].
    intros [= H]. by apply (default_model_not_sentinel monaifbs_file).
  - exists inf, v. split; [exact Hinf |]. split; [exact Hv |].
    intros ->. simpl in E. discriminate.
Qed.

Section Startup.

Variables monaifbs_file cwd : string.
Variable yaml_load : string → option yaml.
Variable run_inference :
  string → gmap string yaml → FS.t → FS.t * result (gmap string yaml).

Local Abbreviation load_config' := (load_config monaifbs_file cwd yaml_load).
Local Abbreviation main' := (main monaifbs_file cwd yaml_load run_inference).

(** The configuration stage on a file that exists: the outcome is that of
    parsing its text and settling the model. *)
Lemma load_config_read (arg : option string) (st : state) (text : string) :
  FS.read cwd (st_fs st) (effective_config_file monaifbs_file arg) = inr text →
  (load_config' arg st).2
  = match yaml_load text with
    | Some v => match resolve_model monaifbs_file v with
                | inl e => inl e
                | inr m => inr m
                end
    | None => inl YAMLError
    end.
Proof.
  intros Hread. unfold load_config, resolve_config_file, read_config.
  unfold_monad.
  assert (Hfile : FS.isfile cwd (st_fs st)
                    (effective_config_file monaifbs_file arg) = true).
  { unfold FS.read in Hread. unfold FS.isfile.
    destruct (FS.locate cwd _ _) as [e|k]; [discriminate |].
    by destruct (FS.lookup_node (st_fs st) k) as [[?|]|]. }
  rewrite Hfile. simpl. rewrite Hread. simpl.
  destruct (yaml_load text) as [v|]; simpl; [| reflexivity].
  by destruct (resolve_model monaifbs_file v).
Qed.

Lemma load_config_resolved (arg : option string) (st : state)
    (m : gmap string yaml) :
  (load_config' arg st).2 = inr m →
  ∃ v, resolve_model monaifbs_file v = inr m.
Proof.
  unfold load_config, resolve_config_file, read_config. unfold_monad.
  destruct (FS.isfile _ _ _); simpl; [| discriminate].
  destruct (FS.read _ _ _); simpl; [discriminate |].
  destruct (yaml_load _) as [v|]; simpl; [| discriminate].
  intros H. by exists v.
Qed.

(** X1.  A configuration file that exists but does not have the expected
    shape ends the run at startup with an error that tells what is wrong,
    and the run has then made no inference call and changed nothing on
    the file system: a text that does not parse gives the parser's error;
    a document that is not a mapping (an empty file loads as the null
    value), or whose ['inference'] entry is not a mapping, gives a type
    error; a mapping without ['inference'], or an ['inference'] mapping
    without ['model_to_load'], gives the key error for the missing key. *)
Theorem X1_malformed_config_fails_at_startup (args : Args) (st : state)
    (text : string) :
  FS.read cwd (st_fs st)
    (effective_config_file monaifbs_file (config_file args)) = inr text →
  (yaml_load text = None → main' args st = (st, inl YAMLError))
  ∧ (∀ v, yaml_load text = Some v → (∀ m, v ≠ YMap m) →
          main' args st = (st, inl TypeError))
  ∧ (∀ m, yaml_load text = Some (YMap m) → m !! "inference" = None →
          main' args st = (st, inl (KeyError "inference")))
  ∧ (∀ m x, yaml_load text = Some (YMap m) → m !! "inference" = Some x →
            (∀ inference, x ≠ YMap inference) →
            main' args st = (st, inl TypeError))
  ∧ (∀ m inference, yaml_load text = Some (YMap m) →
            m !! "inference" = Some (YMap inference) →
            inference !! "model_to_load" = None →
            main' args st = (st, inl (KeyError "model_to_load"))).
Proof.
  intros Hread. pose proof (load_config_read _ st text Hread) as Hload.
  repeat split.
  - intros Hy. rewrite main_stages, Hload, Hy. reflexivity.
  - intros v Hy Hv. rewrite main_stages, Hload, Hy.
    destruct v as [| | | | |m]; try reflexivity. by destruct (Hv m).
  - intros m Hy Hinf. rewrite main_stages, Hload, Hy.
    unfold resolve_model, getitem. by rewrite Hinf.
  - intros m x Hy Hinf Hx. rewrite main_stages, Hload, Hy.
    unfold resolve_model, getitem. rewrite Hinf.
    destruct x as [| | | | |inf]; try reflexivity. by destruct (Hx inf).
  - intros m inf Hy Hinf Hmodel. rewrite main_stages, Hload, Hy.
    unfold resolve_model, getitem. by rewrite Hinf, Hmodel.
Qed.

(** X2.  Once the configuration is loaded, [inference.model_to_load] is
    present and is never the sentinel ["default"]; settling the model a
    second time would change nothing. *)
Theorem X2_loaded_model_is_settled (arg : option string) (st : state)
    (m : gmap string yaml) :
  (load_config' arg st).2 = inr m →
  (∃ inference v,
      m !! "inference" = Some (YMap inference)
      ∧ inference !! "model_to_load" = Some v
      ∧ v ≠ YStr "default")
  ∧ resolve_model monaifbs_file (YMap m) = inr m.
Proof.
  intros Hload. destruct (load_config_resolved _ _ _ Hload) as [v0 Hres].
  destruct (resolve_model_model _ _ _ Hres) as (inf & v & Hinf & Hv & Hne).
  split; [by exists inf, v |].
  unfold resolve_model, getitem. rewrite Hinf, Hv.
  by rewrite (eq_str_false _ _ Hne).
Qed.

(** X3.  Provided the inference routine leaves the ['inference'] entry of
    the dictionary as it is, no inference call of a run is ever handed the
    sentinel: in the configuration of every call [inference.model_to_load]
    is present and differs from ["default"]. *)
Theorem X3_inference_never_sees_sentinel (args : Args) (st : state) :
  (∀ img c f f' c', run_inference img c f = (f', inr c') →
                    c' !! "inference" = c !! "inference") →
  ∃ calls,
    inference_calls (st_trace (main' args st).1)
    = inference_calls (st_trace st) ++ calls
    ∧ Forall (λ call : string * gmap string yaml,
                ∃ inference v,
                  call.2 !! "inference" = Some (YMap inference)
                  ∧ inference !! "model_to_load" = Some v
                  ∧ v ≠ YStr "default") calls.
Proof.
  intros Hframe.
  destruct (main_calls monaifbs_file cwd yaml_load run_inference
              (λ c, ∃ inference v,
                  c !! "inference" = Some (YMap inference)
                  ∧ inference !! "model_to_load" = Some v
                  ∧ v ≠ YStr "default") args st)
    as (calls & Htr & Hall & _).
  - intros c v (inf & w & Hinf & Hw). exists inf, w.
    by rewrite lookup_insert_ne.
  - intros img c f f' c' (inf & w & Hinf & Hw) Hrun. exists inf, w.
    by rewrite (Hframe _ _ _ _ _ Hrun).
  - intros config Hload. destruct (load_config_resolved _ _ _ Hload) as [v Hres].
    exact (resolve_model_model _ _ _ Hres).
  - exists calls. split; [exact Htr |].
    exact (Forall2_call_for_inv _ _ _ _ Hall).
Qed.

End Startup.

(** ** Failures inside the loop *)

Section Failures.

Variable cwd : string.
Variable run_inference :
  string → gmap string yaml → FS.t → FS.t * result (gmap string yaml).

(** X4.  An iteration that fails ends the loop, and the pairs after it
    are never processed.  When the output folder cannot be prepared, the
    error of [os.makedirs] is the error of the loop and no inference call
    is made.  When the inference routine raises, its exception is the
    error of the loop as it stands, the file system is the one the routine
    left, and the call is the last entry of the log: the finalizer has
    neither renamed nor removed anything. *)
Theorem X4_iteration_failure_ends_loop (img seg : string)
    (rest : list (string * string)) (config : gmap string yaml) (st : state) :
  (∀ st1 e, prepare_out_folder cwd seg st = (st1, inl e) →
      loop cwd run_inference ((img, seg) :: rest) config st = (st1, inl e)
      ∧ inference_calls (st_trace st1) = inference_calls (st_trace st))
  ∧ (∀ st1 d f' e,
      prepare_out_folder cwd seg st = (st1, inr d) →
      run_inference img (<["output" := output_section d]> config) (st_fs st1)
        = (f', inl e) →
      d = out_folder_of cwd seg
      ∧ loop cwd run_inference ((img, seg) :: rest) config st
        = (mkState f'
             (st_trace st1
              ++ [EvInference img (<["output" := output_section d]> config)]),
           inl e)).
Proof.
  split.
  - intros st1 e Hprep. split.
    + simpl. unfold bind at 1. unfold iteration, bind at 1. by rewrite Hprep.
    + pose proof (quiet_prepare_out_folder cwd seg st) as Hq.
      by rewrite Hprep in Hq.
  - intros st1 d f' e Hprep Hrun.
    pose proof (prepare_out_folder_result cwd seg st d) as Hd.
    rewrite Hprep in Hd. split; [by apply Hd |].
    simpl. unfold bind at 1. unfold iteration, bind at 1. rewrite Hprep.
    unfold bind at 1, call_inference. by rewrite Hrun.
Qed.

End Failures.

(** ** What the finalizer leaves on the disk *)

Lemma read_lookup (cwd : string) (f : FS.t) (p content : string) :
  FS.read cwd f p = inr content ↔
  ∃ k, FS.locate cwd f p = inr k ∧ k ≠ [] ∧ f !! k = Some (FS.File content).
Proof.
  unfold FS.read. split.
  - destruct (FS.locate cwd f p) as [e|[|c k]]; simpl; try discriminate.
    destruct (f !! (c :: k)) as [[?|]|] eqn:E; try discriminate.
    intros [= ->]. by exists (c :: k).
  - intros (k & -> & Hk & Hf). destruct k as [|c k]; [done |].
    simpl. by rewrite Hf.
Qed.

(** Renaming a regular file carries its content to the place the new name
    leads to, and leaves every directory in place. *)
Lemma rename_file (cwd : string) (f f' : FS.t) (src dst content : string) :
  FS.read cwd f src = inr content →
  FS.rename cwd f src dst = inr f' →
  ∃ kd, FS.locate cwd f dst = inr kd
      ∧ kd ≠ []
      ∧ f' !! kd = Some (FS.File content)
      ∧ ∀ k, FS.lookup_node f k = Some FS.Dir → FS.lookup_node f' k = Some FS.Dir.
Proof.
  intros (ks & Hs & Hne & Hf)%read_lookup. unfold FS.rename. rewrite Hs.
  destruct (FS.locate cwd f dst) as [e|kd] eqn:Hd; [discriminate |].
  destruct (negb _); [discriminate |].
  destruct ks as [|c ks]; [done |]. simpl FS.lookup_node at 1. rewrite Hf.
  case_bool_decide as Heq.
  - intros [= <-]. exists kd. subst kd. by repeat split.
  - destruct kd as [|c' kd]; [discriminate |]. simpl FS.lookup_node.
    assert (Hkeep : ∀ content',
              f !! (c' :: kd) ≠ Some FS.Dir →
              ∀ k, FS.lookup_node f k = Some FS.Dir →
                   FS.lookup_node (<[c' :: kd := FS.File content']>
                                     (delete (c :: ks) f)) k = Some FS.Dir).
    { intros content' Hnd [|c0 k0]; [done |]. simpl. intros Hk0.
      rewrite lookup_insert_ne by congruence.
      rewrite lookup_delete_ne by congruence. exact Hk0. }
    destruct (f !! (c' :: kd)) as [[?|]|] eqn:Hkd; try discriminate;
      intros [= <-]; exists (c' :: kd);
      (split; [reflexivity |]); (split; [done |]);
      (split; [by rewrite lookup_insert_eq |]);
      apply Hkeep; congruence.
Qed.

(** Removing a directory removes it and leaves every regular file. *)
Lemma rmdir_effect (cwd : string) (f f' : FS.t) (p : string) :
  FS.rmdir cwd f p = inr f' →
  FS.exists_ cwd f' p = false
  ∧ ∀ k content, f !! k = Some (FS.File content) → f' !! k = Some (FS.File content).
Proof.
  unfold FS.rmdir.
  destruct (FS.locate cwd f p) as [e|k] eqn:Hloc; [discriminate |].
  destruct (String.eqb (FS.last_comp p) "..") eqn:E1; [discriminate |].
  destruct (String.eqb (FS.last_comp p) ".") eqn:E2; [discriminate |].
  destruct (String.eqb (FS.last_comp p) "") eqn:E3; [discriminate |].
  assert (Hplain : FS.plain p = true) by (unfold FS.plain; by rewrite E1, E2, E3).
  pose proof (FSFacts.locate_resolve cwd _ _ _ Hloc) as Hres.
  destruct (FSFacts.resolve_plain cwd _ _ Hres Hplain) as [parent Hk].
  assert (Hne : k ≠ []) by (rewrite Hk; by destruct parent).
  destruct k as [|c k]; [done |]. simpl FS.lookup_node.
  destruct (f !! (c :: k)) as [[?|]|] eqn:Hdir; try discriminate.
  destruct (FS.has_entries_below f (c :: k)); [discriminate |].
  intros [= <-]. split.
  - unfold FS.exists_.
    destruct (FS.locate cwd (delete (c :: k) f) p) as [e|k'] eqn:Hloc';
      [reflexivity |].
    apply FSFacts.locate_resolve in Hloc'. rewrite Hres in Hloc'.
    injection Hloc' as <-. simpl. by rewrite lookup_delete_eq.
  - intros k0 content Hk0. rewrite lookup_delete_ne; [exact Hk0 |].
    intros <-. congruence.
Qed.

Lemma read_exists (cwd : string) (f : FS.t) (p content : string) :
  FS.read cwd f p = inr content → FS.exists_ cwd f p = true.
Proof.
  intros (k & Hk & Hne & Hf)%read_lookup. unfold FS.exists_. rewrite Hk.
  destruct k; [done |]. simpl. by rewrite Hf.
Qed.

(** X6.  When the file expected from the inference is a regular file and
    the finalizer succeeds, the place the requested output name led to
    when the finalizer started holds afterwards a regular file with the
    content the expected file had, and reading the requested name gives
    that content whenever the name still leads somewhere; the
    intermediate subdirectory no longer exists.  (A requested name that
    runs through the intermediate subdirectory, as
    [out/case1/../mask.nii.gz] does, leads nowhere once the subdirectory
    is removed.) *)
Theorem X6_finalize_moves_content (cwd img seg out_folder postfix content : string)
    (config : gmap string yaml) (st st' : state) :
  out_postfix config = inr postfix →
  FS.read cwd (st_fs st) (out_filename out_folder img postfix) = inr content →
  finalize cwd img seg out_folder config st = (st', inr tt) →
  (∃ k, FS.locate cwd (st_fs st) seg = inr k
        ∧ st_fs st' !! k = Some (FS.File content))
  ∧ (FS.exists_ cwd (st_fs st') seg = true →
     FS.read cwd (st_fs st') seg = inr content)
  ∧ FS.exists_ cwd (st_fs st')
      (PosixPath.join out_folder [(strip_extension img).1]) = false.
Proof.
  intros Hpost Hread.
  rewrite (finalize_found _ _ _ _ _ _ _ Hpost (read_exists _ _ _ _ Hread)).
  destruct (FS.rename cwd (st_fs st) _ seg) as [e|f'] eqn:Hren; [discriminate |].
  destruct (rename_file _ _ _ _ _ _ Hread Hren) as (kd & Hloc & Hne & Hkd & Hdir).
  assert (Hseg : FS.exists_ cwd f' seg = true).
  { unfold FS.exists_. rewrite (FSFacts.locate_mono cwd _ _ _ _ Hdir Hloc).
    destruct kd; [done |]. simpl. by rewrite Hkd. }
  rewrite Hseg.
  destruct (FS.rmdir cwd f' _) as [e|f''] eqn:Hrm; [discriminate |].
  intros [= <-]. destruct (rmdir_effect _ _ _ _ Hrm) as [Hgone Hkeep].
  pose proof (FSFacts.locate_resolve cwd _ _ _ Hloc) as Hres.
  cbn [st_fs]. split; [| split; [| exact Hgone]].
  - exists kd. split; [exact Hloc | by apply Hkeep].
  - unfold FS.exists_, FS.read.
    destruct (FS.locate cwd f'' seg) as [e|k'] eqn:Hloc'; [discriminate |].
    apply FSFacts.locate_resolve in Hloc'. rewrite Hres in Hloc'.
    injection Hloc' as <-. intros _.
    destruct kd; [done |]. simpl. by rewrite (Hkeep _ _ Hkd).
Qed.

(** A regular file that has been renamed is read under its new name. *)
Lemma rename_file_read (cwd : string) (f f' : FS.t) (src dst content : string) :
  FS.read cwd f src = inr content →
  FS.rename cwd f src dst = inr f' →
  FS.read cwd f' dst = inr content.
Proof.
  intros Hread Hren.
  destruct (rename_file _ _ _ _ _ _ Hread Hren) as (kd & Hloc & Hne & Hkd & Hdir).
  apply read_lookup. exists kd. split; [| by split].
  exact (FSFacts.locate_mono cwd _ _ _ _ Hdir Hloc).
Qed.

(** X7.  When the file expected from the inference is a regular file and
    [os.rename] has succeeded, the requested name exists and holds the
    content of the expected file, so the test on line 107 passes and the
    finalizer goes on to [os.rmdir].  The outcome of the finalizer is then
    the outcome of the [os.rmdir]; when that fails, for instance because
    the subdirectory is not empty, the finalizer fails with its error
    although the output file is already under the requested name. *)
Theorem X7_rmdir_follows_rename (cwd img seg out_folder postfix content : string)
    (config : gmap string yaml) (st : state) (f' : FS.t) :
  out_postfix config = inr postfix →
  FS.read cwd (st_fs st) (out_filename out_folder img postfix) = inr content →
  FS.rename cwd (st_fs st) (out_filename out_folder img postfix) seg = inr f' →
  let subdir := PosixPath.join out_folder [(strip_extension img).1] in
  let log := st_trace st
             ++ [EvRename (out_filename out_folder img postfix) seg;
                 EvRmdir subdir] in
  FS.exists_ cwd f' seg = true
  ∧ FS.read cwd f' seg = inr content
  ∧ finalize cwd img seg out_folder config st
    = match FS.rmdir cwd f' subdir with
      | inl e => (mkState f' log, inl e)
      | inr f'' => (mkState f'' log, inr tt)
      end.
Proof.
  intros Hpost Hread Hren subdir log.
  pose proof (rename_file_read _ _ _ _ _ _ Hread Hren) as Hseg.
  split; [exact (read_exists _ _ _ _ Hseg) |]. split; [exact Hseg |].
  rewrite (finalize_found _ _ _ _ _ _ _ Hpost (read_exists _ _ _ _ Hread)).
  rewrite Hren, (read_exists _ _ _ _ Hseg).
  fold subdir. subst log. rewrite <- app_assoc. reflexivity.
Qed.

(** ** Where the expected file lies *)

(** X8.  The file the finalizer expects is an entry of the very directory
    it removes afterwards: whenever the output folder is not the empty
    string and the postfix has no separator in it, the expected path
    resolves to the key of the intermediate subdirectory followed by the
    expected file name. *)
Theorem X8_expected_file_in_subdir (cwd out_folder img postfix : string) :
  out_folder ≠ "" →
  PyStr.contains "/" postfix = false →
  let stem := (strip_extension img).1 in
  let name := out_name stem (strip_extension img).2 postfix in
  ∃ k, FS.resolve cwd (PosixPath.join out_folder [stem]) = Some k
     ∧ FS.resolve cwd (out_filename out_folder img postfix) = Some (k ++ [name]).
Proof.
  intros Hne Hpost stem name.
  assert (Hstem : PyStr.contains "/" stem = false).
  { subst stem. unfold strip_extension.
    destruct (PyStr.contains "gz" _); simpl; unfold PyStr.slice_to_neg;
      apply PathFacts.no_sep_take, PathFacts.basename_no_sep. }
  assert (Hname : PyStr.contains "/" name = false).
  { subst name. unfold out_name.
    destruct ((strip_extension img).2);
      repeat (apply PathFacts.no_sep_app; try done). }
  assert (Hlen : (5 ≤ String.length name)%nat).
  { subst name. unfold out_name.
    destruct ((strip_extension img).2);
      rewrite !PyStrFacts.length_app; simpl; lia. }
  destruct (PathFacts.resolve_join2 cwd out_folder stem Hne Hstem) as [Hsub Hk].
  destruct (PathFacts.resolve_join2 cwd (PosixPath.join2 out_folder stem) name
              Hsub Hname) as [_ Hfile].
  assert (Hout : out_filename out_folder img postfix
                 = PosixPath.join2 (PosixPath.join2 out_folder stem) name).
  { unfold out_filename. subst name stem. by destruct (strip_extension img). }
  rewrite Hout, Hfile. change (PosixPath.join out_folder [stem])
    with (PosixPath.join2 out_folder stem).
  rewrite Hk, (PathFacts.resolve_not_empty cwd out_folder Hne).
  eexists. split; [reflexivity |]. simpl. f_equal. unfold FS.push_comp at 1.
  destruct (String.eqb name "") eqn:E1;
    [apply String.eqb_eq in E1; rewrite E1 in Hlen; simpl in Hlen; lia |].
  destruct (String.eqb name ".") eqn:E2;
    [apply String.eqb_eq in E2; rewrite E2 in Hlen; simpl in Hlen; lia |].
  destruct (String.eqb name "..") eqn:E3;
    [apply String.eqb_eq in E3; rewrite E3 in Hlen; simpl in Hlen; lia |].
  reflexivity.
Qed.

(** X9.  For an input whose base name is no longer than the extension
    that is cut off (seven characters when it has [gz] in it, four
    otherwise) the stripped name is empty, and the path the finalizer
    hands to [os.rmdir] then resolves to the output folder itself. *)
Theorem X9_short_name_targets_out_folder (cwd out_folder img : string) :
  out_folder ≠ "" →
  (String.length (PosixPath.basename img)
   ≤ if PyStr.contains "gz" (PosixPath.basename img) then 7 else 4)%nat →
  (strip_extension img).1 = ""
  ∧ FS.resolve cwd (PosixPath.join out_folder [(strip_extension img).1])
    = FS.resolve cwd out_folder.
Proof.
  intros Hne Hlen.
  assert (Hstem : (strip_extension img).1 = "").
  { unfold strip_extension, PyStr.slice_to_neg.
    destruct (PyStr.contains "gz" _); simpl;
      [replace (_ - 7) with 0 by lia | replace (_ - 4) with 0 by lia];
      by destruct (PosixPath.basename img). }
  split; [exact Hstem |]. rewrite Hstem.
  change (PosixPath.join out_folder [""]) with (PosixPath.join2 out_folder "").
  destruct (PathFacts.resolve_join2 cwd out_folder "" Hne eq_refl) as [_ ->].
  rewrite (PathFacts.resolve_not_empty cwd out_folder Hne). reflexivity.
Qed.

(** ** The calls of an iteration, and what carries over to the next *)

Section Pipeline.

Variable cwd : string.
Variable run_inference :
  string → gmap string yaml → FS.t → FS.t * result (gmap string yaml).

(** A finalizer that succeeds has renamed, and has then removed the
    subdirectory when the requested name existed. *)
Lemma finalize_success_log (img seg out_folder : string)
    (config : gmap string yaml) (st st' : state) :
  finalize cwd img seg out_folder config st = (st', inr tt) →
  ∃ postfix f',
    out_postfix config = inr postfix
    ∧ FS.rename cwd (st_fs st) (out_filename out_folder img postfix) seg = inr f'
    ∧ st_trace st'
      = st_trace st
        ++ EvRename (out_filename out_folder img postfix) seg
           :: (if FS.exists_ cwd f' seg
               then [EvRmdir (PosixPath.join out_folder [(strip_extension img).1])]
               else []).
Proof.
  destruct (out_postfix config) as [e|postfix] eqn:Hpost.
  { unfold finalize. unfold_monad. rewrite Hpost. discriminate. }
  destruct (FS.exists_ cwd (st_fs st) (out_filename out_folder img postfix))
    eqn:Hfound.
  2:{ unfold finalize. unfold_monad. rewrite Hpost. cbv beta iota.
      rewrite Hfound. discriminate. }
  rewrite (finalize_found _ _ _ _ _ _ _ Hpost Hfound).
  destruct (FS.rename cwd (st_fs st) _ seg) as [e|f'] eqn:Hren; [discriminate |].
  intros Hfin. exists postfix, f'. split; [reflexivity |]. split; [exact Hren |].
  destruct (FS.exists_ cwd f' seg).
  - destruct (FS.rmdir cwd f' _) as [e|f'']; [discriminate |].
    injection Hfin as <-. simpl. by rewrite <- app_assoc.
  - by injection Hfin as <-.
Qed.

(** X10.  An iteration that succeeds has added to the log exactly these
    calls, in this order: [os.makedirs] on the output folder, only when
    the folder did not exist; the inference call, on the file system the
    preparation left; [os.rename] from the expected path to the requested
    name, on the file system the inference left; and [os.rmdir] on the
    intermediate subdirectory, only when the requested name exists after
    the rename.  The expected path is built with the postfix read back
    from the configuration as the inference routine left it. *)
Theorem X10_successful_iteration_log (img seg : string)
    (config config' : gmap string yaml) (st st' : state) :
  iteration cwd run_inference img seg config st = (st', inr config') →
  let d := out_folder_of cwd seg in
  let c := <["output" := output_section d]> config in
  let prepared := st_fs (prepare_out_folder cwd seg st).1 in
  let inferred := (run_inference img c prepared).1 in
  ∃ postfix f',
    out_postfix config' = inr postfix
    ∧ FS.rename cwd inferred (out_filename d img postfix) seg = inr f'
    ∧ st_trace st'
      = st_trace st
        ++ (if FS.exists_ cwd (st_fs st) d then [] else [EvMakedirs d])
        ++ [EvInference img c; EvRename (out_filename d img postfix) seg]
        ++ (if FS.exists_ cwd f' seg
            then [EvRmdir (PosixPath.join d [(strip_extension img).1])]
            else []).
Proof.
  intros Hit d c prepared inferred. subst prepared inferred.
  unfold iteration, bind, call_inference in Hit.
  destruct (prepare_out_folder cwd seg st) as [st1 [e|d']] eqn:Hprep;
    [discriminate |].
  assert (Hd : d' = d).
  { apply (prepare_out_folder_result cwd seg st). by rewrite Hprep. }
  subst d'. fold c in Hit.
  assert (Hlog : st_trace st1
                 = st_trace st
                   ++ (if FS.exists_ cwd (st_fs st) d then [] else [EvMakedirs d])).
  { revert Hprep. unfold prepare_out_folder, os_makedirs.
    unfold_monad. fold d.
    destruct (FS.exists_ cwd (st_fs st) d); simpl.
    - intros [= <-]. by rewrite app_nil_r.
    - destruct (FS.makedirs cwd (st_fs st) d) as [f1 [e|]]; simpl; [discriminate |].
      by intros [= <-]. }
  cbn [fst].
  destruct (run_inference img c (st_fs st1)) as [f' [e|config1]];
    [discriminate |].
  destruct (finalize cwd img seg d config1 _) as [st2 [e|[]]] eqn:Hfin;
    [discriminate |].
  injection Hit as <- <-.
  destruct (finalize_success_log _ _ _ _ _ _ Hfin)
    as (postfix & f2 & Hpost & Hren & Htr).
  exists postfix, f2. split; [exact Hpost |]. split; [exact Hren |].
  rewrite Htr. simpl. rewrite Hlog, <- !app_assoc. reflexivity.
Qed.

Lemma loop_cons (img seg : string) (rest : list (string * string))
    (config : gmap string yaml) (st : state) :
  loop cwd run_inference ((img, seg) :: rest) config st
  = match iteration cwd run_inference img seg config st with
    | (st1, inr config1) => loop cwd run_inference rest config1 st1
    | (st1, inl e) => (st1, inl e)
    end.
Proof. reflexivity. Qed.

(** X11.  The configuration dictionary is one object for the whole loop:
    the dictionary as the inference routine leaves it for one pair, with
    ['output'] reassigned, is what the routine is handed for the next
    pair.  In a loop over at least two pairs, either the loop fails before
    a second inference call is made, or the first two calls are the first
    image on the starting configuration and the second image on the
    configuration that very first call left (the call made on the file
    system the preparation of the first output folder left), each with
    the output section of its own pair. *)
Theorem X11_config_carries_over (img1 seg1 img2 seg2 : string)
    (rest : list (string * string)) (config : gmap string yaml) (st : state) :
  let r := loop cwd run_inference ((img1, seg1) :: (img2, seg2) :: rest) config st in
  let c1 := <["output" := output_section (out_folder_of cwd seg1)]> config in
  let prepared := st_fs (prepare_out_folder cwd seg1 st).1 in
  ((∃ e, r.2 = inl e)
   ∧ (inference_calls (st_trace r.1) = inference_calls (st_trace st)
      ∨ inference_calls (st_trace r.1)
        = inference_calls (st_trace st) ++ [(img1, c1)]))
  ∨ ∃ config1 more,
      (run_inference img1 c1 prepared).2 = inr config1
      ∧ inference_calls (st_trace r.1)
        = inference_calls (st_trace st)
          ++ (img1, c1)
             :: (img2, <["output" := output_section (out_folder_of cwd seg2)]> config1)
             :: more.
Proof.
  intros r c1 prepared. subst r prepared. rewrite loop_cons.
  destruct (iteration_config cwd run_inference img1 seg1 config st)
    as [[Htr1 [e He]] | [Htr1 Hres1]].
  { destruct (iteration _ _ img1 _ _ _) as [st1 r1]; simpl in Htr1, He.
    subst r1. simpl. left. split; [by exists e | by left]. }
  fold c1 in Htr1, Hres1.
  destruct (iteration _ _ img1 _ _ _) as [st1 [e|config1]]; simpl in Htr1, Hres1.
  { left. split; [by exists e | by right]. }
  pose proof (Hres1 _ eq_refl) as Hrun. rewrite loop_cons.
  destruct (iteration_config cwd run_inference img2 seg2 config1 st1)
    as [[Htr2 [e He]] | [Htr2 Hres2]].
  { destruct (iteration _ _ img2 _ _ _) as [st2 r2]; simpl in Htr2, He.
    subst r2. simpl. left. split; [by exists e |]. right. by rewrite Htr2. }
  right. exists config1.
  destruct (iteration _ _ img2 _ _ _) as [st2 [e|config2]]; simpl in Htr2, Hres2.
  { exists []. split; [exact Hrun |]. simpl.
    by rewrite Htr2, Htr1, <- app_assoc. }
  destruct (loop_calls cwd run_inference (λ _, True) (λ _ _ _, I)
              (λ _ _ _ _ _ _ _, I) rest config2 st2 I) as (more & Htr3 & _).
  exists more. split; [exact Hrun |].
  rewrite Htr3, Htr2, Htr1, <- !app_assoc. reflexivity.
Qed.

End Pipeline.

(** ** The expected path on well-named inputs *)

(** X12.  For an input whose base name is [<stem>.nii.gz] the path the
    finalizer expects is [<stem>/<stem>_<postfix>.nii.gz] under the output
    folder; for a base name [<stem>.nii] with no [gz] anywhere in it, it
    is [<stem>/<stem>_<postfix>.nii].  In both cases this is the path the
    naming convention of the inference output gives. *)
Theorem X12_expected_path_on_nifti_names (out_folder img stem postfix : string) :
  (PosixPath.basename img = stem +:+ ".nii.gz" →
   out_filename out_folder img postfix
   = PosixPath.join out_folder [stem; stem +:+ "_" +:+ postfix +:+ ".nii.gz"]
   ∧ out_filename out_folder img postfix
     = Convention.expected_path out_folder img postfix)
  ∧ (PosixPath.basename img = stem +:+ ".nii" →
     PyStr.contains "gz" (PosixPath.basename img) = false →
     out_filename out_folder img postfix
     = PosixPath.join out_folder [stem; stem +:+ "_" +:+ postfix +:+ ".nii"]
     ∧ out_filename out_folder img postfix
       = Convention.expected_path out_folder img postfix).
Proof.
  split.
  - apply out_filename_nii_gz.
  - apply out_filename_nii.
Qed.

(** ** The further properties at concrete inputs *)

(** X1 on a configuration file that is empty, which loads as the null
    value. *)
Lemma X1_witness :
  main Double.monaifbs_file Double.cwd (λ _, Some YNull)
    (Double.run_inference Double.cwd) Double.one_args Double.start
  = (Double.start, inl TypeError).
Proof.
  destruct (X1_malformed_config_fails_at_startup
              Double.monaifbs_file Double.cwd (λ _, Some YNull)
              (Double.run_inference Double.cwd) Double.one_args Double.start
              "inference: {model_to_load: default}")
    as (_ & Hnull & _).
  - vm_compute; reflexivity.
  - by apply (Hnull YNull).
Defined.

(** X2 on the bundled configuration. *)
Lemma X2_witness :
  resolve_model Double.monaifbs_file
    (YMap {["inference" :=
              YMap {["model_to_load" :=
                       YStr "/pkg/monaifbs/models/checkpoint_dynUnet_DiceXent.pt"]}]})
  = inr {["inference" :=
            YMap {["model_to_load" :=
                     YStr "/pkg/monaifbs/models/checkpoint_dynUnet_DiceXent.pt"]}]}.
Proof.
  apply (X2_loaded_model_is_settled Double.monaifbs_file Double.cwd
           Double.yaml_load None Double.start).
  vm_compute; reflexivity.
Defined.

(** X3 with the test double, on two pairs. *)
Lemma X3_witness :
  Forall (λ call : string * gmap string yaml,
            ∃ inference v,
              call.2 !! "inference" = Some (YMap inference)
              ∧ inference !! "model_to_load" = Some v
              ∧ v ≠ YStr "default")
    (inference_calls (st_trace (Double.run Double.two_args).1)).
Proof.
  destruct (X3_inference_never_sees_sentinel
              Double.monaifbs_file Double.cwd Double.yaml_load
              (Double.run_inference Double.cwd) Double.two_args Double.start)
    as (calls & Htr & Hall).
  - intros img c f f' c' Hrun.
    by rewrite (double_keeps_config _ _ _ _ _ _ Hrun).
  - unfold Double.run. by rewrite Htr.
Defined.

(** X4 with an inference routine that always raises. *)
Lemma X4_witness :
  loop Double.cwd (λ _ _ f, (f, inl (Raised "RuntimeError")))
    [("case1.nii.gz", "own.yml"); ("in/case2.nii", "case2_mask.nii")]
    ∅ Double.start
  = (mkState Double.disk
       [EvInference "case1.nii.gz" (<["output" := output_section "/work"]> ∅)],
     inl (Raised "RuntimeError")).
Proof.
  destruct (X4_iteration_failure_ends_loop Double.cwd
              (λ _ _ f, (f, inl (Raised "RuntimeError")))
              "case1.nii.gz" "own.yml" [("in/case2.nii", "case2_mask.nii")]
              ∅ Double.start) as [_ Hraise].
  apply (Hraise Double.start "/work" Double.disk (Raised "RuntimeError")).
  - vm_compute; reflexivity.
  - reflexivity.
Defined.

(** X6 on the disk of the example: the mask ends up under the requested
    name. *)
Lemma X6_witness :
  FS.read Double.cwd Double.finalized "out/case1_mask.nii.gz" = inr "mask"
  ∧ FS.exists_ Double.cwd Double.finalized "out/case1" = false.
Proof.
  destruct (X6_finalize_moves_content Double.cwd "case1.nii.gz"
              "out/case1_mask.nii.gz" "out" "seg" "mask" Double.config_out
              (mkState Double.produced [])
              (mkState Double.finalized
                 [EvRename "out/case1/case1_seg.nii.gz" "out/case1_mask.nii.gz";
                  EvRmdir "out/case1"]))
    as (_ & Hread & Hgone).
  - vm_compute; reflexivity.
  - vm_compute; reflexivity.
  - vm_compute; reflexivity.
  - split; [| exact Hgone]. apply Hread. vm_compute; reflexivity.
Defined.

(** X7 on a disk where the inference routine has left a second file in
    the subdirectory: the finalizer fails at [os.rmdir], and the mask is
    already under the requested name. *)
Lemma X7_witness :
  (finalize Double.cwd "case1.nii.gz" "out/case1_mask.nii.gz" "out"
     Double.config_out (mkState Double.crowded [])).2
  = inl (OSError "ENOTEMPTY")
  ∧ FS.read Double.cwd
      (st_fs (finalize Double.cwd "case1.nii.gz" "out/case1_mask.nii.gz" "out"
                Double.config_out (mkState Double.crowded [])).1)
      "out/case1_mask.nii.gz"
    = inr "mask".
Proof.
  assert (Hres : (finalize Double.cwd "case1.nii.gz" "out/case1_mask.nii.gz"
                    "out" Double.config_out (mkState Double.crowded [])).2
                 = inl (OSError "ENOTEMPTY")) by (vm_compute; reflexivity).
  split; [exact Hres |].
  destruct (FS.rename Double.cwd Double.crowded
              "out/case1/case1_seg.nii.gz" "out/case1_mask.nii.gz")
    as [e|f'] eqn:Hren.
  - exfalso.
    assert (H : match FS.rename Double.cwd Double.crowded
                        "out/case1/case1_seg.nii.gz" "out/case1_mask.nii.gz"
                with inl _ => false | inr _ => true end = true)
      by (vm_compute; reflexivity).
    rewrite Hren in H. discriminate.
  - destruct (X7_rmdir_follows_rename Double.cwd "case1.nii.gz"
                "out/case1_mask.nii.gz" "out" "seg" "mask" Double.config_out
                (mkState Double.crowded []) f') as (_ & Hread & Hfin).
    + vm_compute; reflexivity.
    + vm_compute; reflexivity.
    + exact Hren.
    + rewrite Hfin in Hres |- *.
      destruct (FS.rmdir Double.cwd f' _) as [e|f'']; [exact Hread |].
      discriminate Hres.
Defined.

(** A requested name that runs through the intermediate subdirectory: the
    finalizer succeeds and the mask lies in [out], but the requested name
    leads nowhere once the subdirectory is gone. *)
Lemma finalize_name_through_subdir :
  finalize Double.cwd "case1.nii.gz" "out/case1/../mask.nii.gz"
    "out/case1/.." Double.config_out (mkState Double.produced [])
  = (mkState Double.finalized_in_out
       [EvRename "out/case1/../case1/case1_seg.nii.gz" "out/case1/../mask.nii.gz";
        EvRmdir "out/case1/../case1"],
     inr tt)
  ∧ FS.read Double.cwd Double.finalized_in_out "out/mask.nii.gz" = inr "mask"
  ∧ FS.exists_ Double.cwd Double.finalized_in_out "out/case1/../mask.nii.gz"
    = false.
Proof. repeat split; vm_compute; reflexivity. Qed.

(** X8 on the input and the output folder of the example. *)
Lemma X8_witness :
  ∃ k, FS.resolve Double.cwd "out/case1" = Some k
     ∧ FS.resolve Double.cwd "out/case1/case1_seg.nii.gz"
       = Some (k ++ ["case1_seg.nii.gz"]).
Proof.
  apply (X8_expected_file_in_subdir Double.cwd "out" "case1.nii.gz" "seg").
  - done.
  - reflexivity.
Defined.

(** X9 on an input without an extension. *)
Lemma X9_witness :
  (strip_extension "in/scan").1 = ""
  ∧ FS.resolve Double.cwd (PosixPath.join "out" [(strip_extension "in/scan").1])
    = FS.resolve Double.cwd "out".
Proof.
  apply (X9_short_name_targets_out_folder Double.cwd "out" "in/scan").
  - done.
  - simpl. lia.
Defined.

(** X10 on the first pair of the example, from the bundled configuration
    with the model settled. *)
Lemma X10_witness :
  st_trace (iteration Double.cwd (Double.run_inference Double.cwd)
              "case1.nii.gz" "out/case1_mask.nii.gz"
              Double.config_run Double.start).1
  = [EvMakedirs "out";
     EvInference "case1.nii.gz" Double.config_run;
     EvRename "out/case1/case1_seg.nii.gz" "out/case1_mask.nii.gz";
     EvRmdir "out/case1"].
Proof.
  destruct (X10_successful_iteration_log Double.cwd
              (Double.run_inference Double.cwd)
              "case1.nii.gz" "out/case1_mask.nii.gz"
              Double.config_run Double.config_run Double.start
              (iteration Double.cwd (Double.run_inference Double.cwd)
                 "case1.nii.gz" "out/case1_mask.nii.gz"
                 Double.config_run Double.start).1)
    as (postfix & f' & Hpost & Hren & Htr).
  - vm_compute; reflexivity.
  - vm_compute; reflexivity.
Defined.

(** An iteration that succeeds without [os.rmdir]: the expected path is a
    directory and the requested name runs through it, so after the rename
    the requested name leads nowhere and the test on line 107 fails. *)
Lemma iteration_without_rmdir :
  st_trace (iteration Double.cwd Double.idle "case1.nii.gz"
              "out/case1/case1_seg.nii.gz/../../mask.nii.gz"
              Double.config_run (mkState Double.nested [])).1
  = [EvInference "case1.nii.gz"
       (<["output" := output_section "out/case1/case1_seg.nii.gz/../.."]>
          Double.config_run);
     EvRename "out/case1/case1_seg.nii.gz/../../case1/case1_seg.nii.gz"
       "out/case1/case1_seg.nii.gz/../../mask.nii.gz"]
  ∧ (∃ config, (iteration Double.cwd Double.idle "case1.nii.gz"
                  "out/case1/case1_seg.nii.gz/../../mask.nii.gz"
                  Double.config_run (mkState Double.nested [])).2 = inr config)
  ∧ FS.exists_ Double.cwd
      (st_fs (iteration Double.cwd Double.idle "case1.nii.gz"
                "out/case1/case1_seg.nii.gz/../../mask.nii.gz"
                Double.config_run (mkState Double.nested [])).1)
      "out/case1" = true.
Proof.
  split; [vm_compute; reflexivity |]. split; [| vm_compute; reflexivity].
  eexists. vm_compute. reflexivity.
Qed.

(** X12 on the two inputs of the example. *)
Lemma X12_witness :
  out_filename "out" "case1.nii.gz" "seg" = "out/case1/case1_seg.nii.gz"
  ∧ out_filename "/work" "in/case2.nii" "seg" = "/work/case2/case2_seg.nii".
Proof.
  split.
  - destruct (X12_expected_path_on_nifti_names "out" "case1.nii.gz" "case1" "seg")
      as [Hgz _].
    destruct (Hgz eq_refl) as [H _]. exact H.
  - destruct (X12_expected_path_on_nifti_names "/work" "in/case2.nii" "case2" "seg")
      as [_ Hnii].
    destruct (Hnii eq_refl eq_refl) as [H _]. exact H.
Defined.
